(** * testflinger/v1.py: the job broker's request handlers

    A shallow embedding of [src/testflinger/v1.py].  The handlers are
    state-passing functions over a [world] made of the result directory
    (files under [DATA_PATH]) and the Redis server (lists and their expiry),
    together with the trace of store accesses performed so far.  [home],
    which only reports the version, is left out.

    Conventions.
    - A Python [str] is a [string] whose characters are code points below
      256 (text beyond Latin-1 is outside the model); [bytes] are a [string]
      of octets.  Text obtained by decoding bytes is kept as its UTF-8
      encoding.
    - A file holds what was written to it and reads back as such; the
      handlers write ASCII text and uploaded bytes only.
    - Creating a file fails with [OSError] when the file system refuses
      the path as too long ([path_ok], with the limits of Linux), which a
      request can cause through its job id; a world holds no file at such
      a path.  Failures that come from the installation rather than from
      a request are not modelled: [DATA_PATH] is taken to name an existing
      writable directory, with room left, and the Redis server to answer.
    - A Python exception that leaves a function is the result [Raise e];
      the state reached when it was raised is kept.
    - The library calls the handlers make ([uuid.UUID], [str.replace],
      [int(_, 16)], [json.dumps], [os.path.join], the Redis list commands)
      are modelled after CPython 3.6+ and redis-py 3. *)

From Stdlib Require Import ZArith String Ascii List Bool Lia DecimalString.
From stdpp Require Import base option gmap strings.

Local Open Scope string_scope.
Local Open Scope Z_scope.
Import ListNotations.

(** ** Exceptions and results *)

Inductive exn : Type :=
| TypeError
| ValueError
| AttributeError
| UnicodeDecodeError
| DataError
| FileNotFoundError
| OSError
| BadRequestKeyError.

Inductive res (A : Type) : Type :=
| Ret (a : A)
| Raise (e : exn).
Arguments Ret {A} a.
Arguments Raise {A} e.

Definition res_bind {A B} (r : res A) (k : A -> res B) : res B :=
  match r with
  | Ret a => k a
  | Raise e => Raise e
  end.

(** ** Python values as produced by [request.get_json()] *)

(** A float is kept through what the handlers can observe of it: whether it
    is zero (truth value), its [repr], and the text [json.dumps] prints for
    it (which differs from [repr] for infinities and NaN). *)
Record pyfloat : Type :=
  { float_nonzero : bool; float_repr : string; float_json : string }.

(** A [dict] is its items in insertion order; keys are pairwise distinct in
    any value Python builds. *)
#[local] Set Warnings "-register-all".
Inductive json : Type :=
| JNull
| JBool (b : bool)
| JInt (z : Z)
| JFloat (f : pyfloat)
| JStr (s : string)
| JList (l : list json)
| JDict (d : list (string * json)).

(** [bool(v)], the test behind [if not v]. *)
Definition truthy (v : json) : bool :=
  match v with
  | JNull => false
  | JBool b => b
  | JInt z => negb (z =? 0)
  | JFloat f => float_nonzero f
  | JStr s => negb (String.eqb s "")
  | JList l => match l with [] => false | _ => true end
  | JDict d => match d with [] => false | _ => true end
  end.

Fixpoint dict_lookup (k : string) (d : list (string * json)) : option json :=
  match d with
  | [] => None
  | (k', v) :: d' => if String.eqb k k' then Some v else dict_lookup k d'
  end.

(** [d[k] = v]: the value is replaced in place, a new key goes last. *)
Fixpoint dict_set (k : string) (v : json) (d : list (string * json))
  : list (string * json) :=
  match d with
  | [] => [(k, v)]
  | (k', v') :: d' =>
      if String.eqb k k' then (k', v) :: d' else (k', v') :: dict_set k v d'
  end.

(** [data.get(k)]: only a dict has the method. *)
Definition py_get (data : json) (k : string) : res json :=
  match data with
  | JDict d => Ret (default JNull (dict_lookup k d))
  | _ => Raise AttributeError
  end.

(** [data[k] = v] on a dict. *)
Definition py_setitem (data : json) (k : string) (v : json) : res json :=
  match data with
  | JDict d => Ret (JDict (dict_set k v d))
  | _ => Raise TypeError
  end.

(** ** String primitives *)

Fixpoint str_mem (c : ascii) (s : string) : bool :=
  match s with
  | "" => false
  | String c' s' => Ascii.eqb c c' || str_mem c s'
  end.

Definition str_tail (s : string) : string :=
  match s with
  | "" => ""
  | String _ s' => s'
  end.

(** [s.replace(old, new)] for a non-empty [old]: occurrences are found left
    to right and do not overlap.  [pending] is what is left to skip of the
    occurrence being replaced. *)
Fixpoint str_replace_from (old new pending s : string) : string :=
  match s with
  | "" => ""
  | String c s' =>
      match pending with
      | String _ p' => str_replace_from old new p' s'
      | "" =>
          if String.prefix old s
          then new ++ str_replace_from old new (str_tail old) s'
          else String c (str_replace_from old new "" s')
      end
  end.

(** With an empty [old], [new] is inserted around every character. *)
Fixpoint str_intersperse (new s : string) : string :=
  match s with
  | "" => new
  | String c s' => new ++ String c (str_intersperse new s')
  end.

Definition str_replace (old new s : string) : string :=
  match old with
  | "" => str_intersperse new s
  | _ => str_replace_from old new "" s
  end.

Fixpoint str_lstrip (chars s : string) : string :=
  match s with
  | "" => ""
  | String c s' => if str_mem c chars then str_lstrip chars s' else s
  end.

Fixpoint str_rstrip (chars s : string) : string :=
  match s with
  | "" => ""
  | String c s' =>
      match str_rstrip chars s' with
      | "" => if str_mem c chars then "" else String c ""
      | r => String c r
      end
  end.

(** [s.strip(chars)] *)
Definition str_strip (chars s : string) : string :=
  str_rstrip chars (str_lstrip chars s).

(** [sep.join(parts)] *)
Fixpoint str_join (sep : string) (parts : list string) : string :=
  match parts with
  | [] => ""
  | p :: ps =>
      match ps with
      | [] => p
      | _ => p ++ sep ++ str_join sep ps
      end
  end.

(** ** [int(text, 16)] *)

Definition hex_digit_value (c : ascii) : option Z :=
  let n := Z.of_N (N_of_ascii c) in
  if (48 <=? n) && (n <=? 57) then Some (n - 48)
  else if (97 <=? n) && (n <=? 102) then Some (n - 87)
  else if (65 <=? n) && (n <=? 70) then Some (n - 55)
  else None.

Definition is_hex (c : ascii) : bool :=
  match hex_digit_value c with Some _ => true | None => false end.

(** White space [int] skips around a literal: the ASCII blanks, and NEL and
    NBSP, which are turned into a blank before parsing. *)
Definition int_space (c : ascii) : bool :=
  let n := Z.of_N (N_of_ascii c) in
  ((9 <=? n) && (n <=? 13)) || (n =? 32) || (n =? 133) || (n =? 160).

Fixpoint skip_spaces (s : string) : string :=
  match s with
  | "" => ""
  | String c s' => if int_space c then skip_spaces s' else s
  end.

(** The digit scan: hexadecimal digits with single underscores between
    them.  [prev] is the character consumed last, [None] before the first.
    The result is the value, whether anything was consumed, and what
    follows; [None] is a syntax error. *)
Fixpoint long_from_binary_base (prev : option ascii) (acc : Z) (s : string)
  : option (Z * bool * string) :=
  let stop :=
    match prev with
    | Some "_"%char => None
    | Some _ => Some (acc, true, s)
    | None => Some (acc, false, s)
    end in
  match s with
  | "" => stop
  | String c s' =>
      if Ascii.eqb c "_" then
        match prev with
        | Some "_"%char => None
        | _ => long_from_binary_base (Some c) acc s'
        end
      else
        match hex_digit_value c with
        | Some d => long_from_binary_base (Some c) (16 * acc + d) s'
        | None => stop
        end
  end.

Definition skip_sign (s : string) : Z * string :=
  match s with
  | String "+" s' => (1, s')
  | String "-" s' => (-1, s')
  | _ => (1, s)
  end.

(** After [0x] or [0X], one underscore may come before the digits. *)
Definition skip_prefix (s : string) : string :=
  match s with
  | String "0" (String x s') =>
      if Ascii.eqb x "x" || Ascii.eqb x "X" then
        match s' with
        | String "_" s'' => s''
        | _ => s'
        end
      else s
  | _ => s
  end.

Definition int_base16 (text : string) : res Z :=
  let '(sign, s1) := skip_sign (skip_spaces text) in
  let s2 := skip_prefix s1 in
  match s2 with
  | String "_" _ => Raise ValueError
  | _ =>
      match long_from_binary_base None 0 s2 with
      | Some (v, true, rest) =>
          match skip_spaces rest with
          | "" => Ret (sign * v)
          | _ => Raise ValueError
          end
      | _ => Raise ValueError
      end
  end.

(** ** [uuid.UUID(hex)] and [check_valid_uuid] *)

Definition uuid_hex_part (hex : string) : string :=
  let hex := str_replace "uuid:" "" (str_replace "urn:" "" hex) in
  str_replace "-" "" (str_strip "{}" hex).

(** The constructor called with one positional argument; the result is the
    128-bit integer the UUID holds. *)
Definition uuid_UUID (hex : json) : res Z :=
  match hex with
  | JNull => Raise TypeError
  | JStr hex =>
      let hex := uuid_hex_part hex in
      if negb (Nat.eqb (String.length hex) 32) then Raise ValueError
      else
        res_bind (int_base16 hex) (fun int =>
        if (0 <=? int) && (int <? 2 ^ 128) then Ret int
        else Raise ValueError)
  | _ => Raise AttributeError
  end.

(** try: uuid.UUID(job_id) / except: return False / return True *)
Definition check_valid_uuid (job_id : json) : res bool :=
  match uuid_UUID job_id with
  | Ret _ => Ret true
  | Raise _ => Ret false
  end.


(** ** [json.dumps] with its defaults ([ensure_ascii], [", "] and [": "]) *)

Definition nl : string := String "010" "".
Definition dquote : string := String "034" "".

Definition hex_digit_char (d : Z) : ascii :=
  match d with
  | 0 => "0" | 1 => "1" | 2 => "2" | 3 => "3" | 4 => "4" | 5 => "5"
  | 6 => "6" | 7 => "7" | 8 => "8" | 9 => "9" | 10 => "a" | 11 => "b"
  | 12 => "c" | 13 => "d" | 14 => "e" | _ => "f"
  end%char.

Definition escape_char (c : ascii) : string :=
  let n := Z.of_N (N_of_ascii c) in
  if n =? 34 then "\" ++ dquote
  else if n =? 92 then "\\"
  else if n =? 8 then "\b"
  else if n =? 12 then "\f"
  else if n =? 10 then "\n"
  else if n =? 13 then "\r"
  else if n =? 9 then "\t"
  else if (32 <=? n) && (n <=? 126) then String c ""
  else "\u00" ++ String (hex_digit_char (n / 16)) (String (hex_digit_char (n mod 16)) "").

Fixpoint escape_chars (s : string) : string :=
  match s with
  | "" => ""
  | String c s' => escape_char c ++ escape_chars s'
  end.

Definition encode_basestring_ascii (s : string) : string :=
  dquote ++ escape_chars s ++ dquote.

Definition Z_to_string (z : Z) : string := NilZero.string_of_int (Z.to_int z).

Fixpoint json_dumps (j : json) : string :=
  match j with
  | JNull => "null"
  | JBool true => "true"
  | JBool false => "false"
  | JInt z => Z_to_string z
  | JFloat f => float_json f
  | JStr s => encode_basestring_ascii s
  | JList l =>
      "[" ++
      (fix items (l : list json) : string :=
         match l with
         | [] => ""
         | x :: l' =>
             json_dumps x ++
             match l' with [] => "" | _ => ", " ++ items l' end
         end) l
      ++ "]"
  | JDict d =>
      "{" ++
      (fix items (d : list (string * json)) : string :=
         match d with
         | [] => ""
         | (k, v) :: d' =>
             encode_basestring_ascii k ++ ": " ++ json_dumps v ++
             match d' with [] => "" | _ => ", " ++ items d' end
         end) d
      ++ "}"
  end.

(** ** [str(uuid.uuid4())] *)

(** [rnd] is [os.urandom(16)] read as an integer; version 4 and the RFC
    4122 variant are stamped on it. *)
Definition uuid4 (rnd : Z) : Z :=
  let int := rnd mod 2 ^ 128 in
  let int := Z.land int (Z.lnot (Z.shiftl 0xc000 48)) in
  let int := Z.lor int (Z.shiftl 0x8000 48) in
  let int := Z.land int (Z.lnot (Z.shiftl 0xf000 64)) in
  Z.lor int (Z.shiftl 4 76).

(** ['%0<width>x' % n] for [0 <= n < 16 ^ width] *)
Fixpoint format_hex (width : nat) (n : Z) : string :=
  match width with
  | O => ""
  | S w => String (hex_digit_char ((n / 16 ^ Z.of_nat w) mod 16)) (format_hex w n)
  end.

Definition uuid_str (int : Z) : string :=
  let hex := format_hex 32 int in
  substring 0 8 hex ++ "-" ++ substring 8 4 hex ++ "-" ++
  substring 12 4 hex ++ "-" ++ substring 16 4 hex ++ "-" ++ substring 20 12 hex.

(** ** [os.path.join(a, b)] (posixpath) *)

Fixpoint str_last (s : string) : option ascii :=
  match s with
  | "" => None
  | String c "" => Some c
  | String _ s' => str_last s'
  end.

Definition os_path_join (a b : string) : string :=
  match b with
  | String "/" _ => b
  | _ =>
      match str_last a with
      | None | Some "/"%char => a ++ b
      | Some _ => a ++ "/" ++ b
      end
  end.

(** ** [bytes.decode()]: strict UTF-8

    Decoded text is kept as its UTF-8 encoding, so decoding is the identity
    on well-formed input and raises on anything else. *)

Definition byte_in (lo hi : Z) (c : ascii) : bool :=
  let n := Z.of_N (N_of_ascii c) in (lo <=? n) && (n <=? hi).

Fixpoint utf8_valid (b : string) : bool :=
  match b with
  | "" => true
  | String b0 r1 =>
      if byte_in 0 0x7f b0 then utf8_valid r1
      else
        match r1 with
        | "" => false
        | String b1 r2 =>
            if byte_in 0xc2 0xdf b0 then byte_in 0x80 0xbf b1 && utf8_valid r2
            else
              match r2 with
              | "" => false
              | String b2 r3 =>
                  if byte_in 0xe0 0xef b0 then
                    (if byte_in 0xe0 0xe0 b0 then byte_in 0xa0 0xbf b1
                     else if byte_in 0xed 0xed b0 then byte_in 0x80 0x9f b1
                     else byte_in 0x80 0xbf b1)
                    && byte_in 0x80 0xbf b2 && utf8_valid r3
                  else
                    match r3 with
                    | "" => false
                    | String b3 r4 =>
                        byte_in 0xf0 0xf4 b0 &&
                        (if byte_in 0xf0 0xf0 b0 then byte_in 0x90 0xbf b1
                         else if byte_in 0xf4 0xf4 b0 then byte_in 0x80 0x8f b1
                         else byte_in 0x80 0xbf b1)
                        && byte_in 0x80 0xbf b2 && byte_in 0x80 0xbf b3
                        && utf8_valid r4
                    end
              end
        end
  end.

Definition bytes_decode (b : string) : res string :=
  if utf8_valid b then Ret b else Raise UnicodeDecodeError.

Fixpoint decode_all (chunks : list string) : res (list string) :=
  match chunks with
  | [] => Ret []
  | x :: xs =>
      res_bind (bytes_decode x) (fun t =>
      res_bind (decode_all xs) (fun ts => Ret (t :: ts)))
  end.


(** ** The stores and the trace of accesses *)

Inductive event : Type :=
| EvLpush (key value : string)
| EvRpush (key value : string)
| EvExpire (key : string) (seconds : Z)
| EvBrpop (keys : list string) (timeout : positive)
| EvLrangeDelete (key : string)
| EvExists (path : string)
| EvWrite (path content : string)
| EvRead (path : string).

(** [lists] has the left end of a Redis list at the head. *)
Record world : Type := mkWorld {
  files : gmap string string;
  lists : gmap string (list string);
  expiry : gmap string Z;
  trace : list event
}.

Definition empty_world : world := mkWorld ∅ ∅ ∅ [].

(** A command runs in a world and leaves a world and a result. *)
Definition M (A : Type) : Type := world -> world * res A.

Definition ret {A} (a : A) : M A := fun w => (w, Ret a).
Definition raise {A} (e : exn) : M A := fun w => (w, Raise e).
Definition lift {A} (r : res A) : M A := fun w => (w, r).
Definition bind {A B} (c : M A) (k : A -> M B) : M B :=
  fun w =>
    match c w with
    | (w', Ret a) => k a w'
    | (w', Raise e) => (w', Raise e)
    end.
(** try: c / except e: h *)
Definition try_except {A} (c : M A) (h : exn -> M A) : M A :=
  fun w =>
    match c w with
    | (w', Ret a) => (w', Ret a)
    | (w', Raise e) => h e w'
    end.

Notation "x <- c1 ;; c2" := (bind c1 (fun x => c2))
  (at level 20, c1 at level 99, c2 at level 200, only parsing).
Notation "c1 ;; c2" := (bind c1 (fun _ => c2))
  (at level 100, c2 at level 200, only parsing).

Definition log (e : event) : M unit :=
  fun w => (mkWorld (files w) (lists w) (expiry w) (trace w ++ [e]), Ret tt).

Definition set_files (f : gmap string string) : M unit :=
  fun w => (mkWorld f (lists w) (expiry w) (trace w), Ret tt).
Definition set_lists (l : gmap string (list string)) : M unit :=
  fun w => (mkWorld (files w) l (expiry w) (trace w), Ret tt).
Definition set_expiry (x : gmap string Z) : M unit :=
  fun w => (mkWorld (files w) (lists w) x (trace w), Ret tt).
Definition get_world : M world := fun w => (w, Ret w).

(** *** The result directory *)

Definition os_path_exists (path : string) : M bool :=
  log (EvExists path) ;;
  w <- get_world ;;
  ret (bool_decide (is_Some (files w !! path))).

(** The limits of Linux on a path: no component (the text between two
    slashes) longer than [NAME_MAX] bytes, the whole path shorter than
    [PATH_MAX] bytes.  A path is handed to the system in UTF-8, where a
    code point below 128 takes one byte and one below 256 two. *)
Definition NAME_MAX : nat := 255.
Definition PATH_MAX : nat := 4096.

Definition char_bytes (c : ascii) : nat :=
  if (N_of_ascii c <? 128)%N then 1%nat else 2%nat.

Fixpoint fs_bytes (s : string) : nat :=
  match s with
  | "" => 0%nat
  | String c s' => (char_bytes c + fs_bytes s')%nat
  end.

(** [cur] is the number of bytes of the component being read. *)
Fixpoint components_ok (cur : nat) (s : string) : bool :=
  match s with
  | "" => (cur <=? NAME_MAX)%nat
  | String c s' =>
      if Ascii.eqb c "/" then (cur <=? NAME_MAX)%nat && components_ok 0 s'
      else components_ok (cur + char_bytes c) s'
  end.

Definition path_ok (path : string) : bool :=
  components_ok 0 path && (fs_bytes path <? PATH_MAX)%nat.

(** with open(path, 'w') as f: f.write(content); also [file.save(path)].
    [open] raises (ENAMETOOLONG) when the path is refused. *)
Definition file_write (path content : string) : M unit :=
  log (EvWrite path content) ;;
  if path_ok path then
    w <- get_world ;;
    set_files (<[path := content]> (files w))
  else raise OSError.

(** with open(path) as f: f.read(); also what [send_file(path)] sends *)
Definition file_read (path : string) : M string :=
  log (EvRead path) ;;
  w <- get_world ;;
  match files w !! path with
  | Some content => ret content
  | None => raise FileNotFoundError
  end.

(** *** The Redis client *)

(** How redis-py (3.0 and later) encodes a key or value it is given. *)
Definition redis_encode (v : json) : res string :=
  match v with
  | JStr s => Ret s
  | JInt z => Ret (Z_to_string z)
  | JFloat f => Ret (float_repr f)
  | _ => Raise DataError
  end.

Definition redis_list (w : world) (key : string) : list string :=
  default [] (lists w !! key).

(** A list left empty is removed, with its expiry. *)
Definition store_list (key : string) (l : list string) : M unit :=
  w <- get_world ;;
  match l with
  | [] => set_lists (delete key (lists w)) ;; set_expiry (delete key (expiry w))
  | _ => set_lists (<[key := l]> (lists w))
  end.

Definition redis_lpush (key value : string) : M unit :=
  log (EvLpush key value) ;;
  w <- get_world ;;
  store_list key (value :: redis_list w key).

Definition redis_rpush (key value : string) : M unit :=
  log (EvRpush key value) ;;
  w <- get_world ;;
  store_list key (redis_list w key ++ [value]).

Definition redis_expire (key : string) (seconds : Z) : M unit :=
  log (EvExpire key seconds) ;;
  w <- get_world ;;
  match redis_list w key with
  | [] => ret tt
  | _ => set_expiry (<[key := seconds]> (expiry w))
  end.

(** The first of [keys], in the order given, whose list is not empty. *)
Fixpoint first_nonempty (w : world) (keys : list string) : option string :=
  match keys with
  | [] => None
  | k :: ks =>
      match redis_list w k with
      | [] => first_nonempty w ks
      | _ => Some k
      end
  end.

(** [brpop(keys, timeout)] with no other client at work: the right end of
    the first non-empty list with its key, or [None] once the (positive)
    timeout has run out. *)
Definition redis_brpop (keys : list string) (timeout : positive)
  : M (option (string * string)) :=
  log (EvBrpop keys timeout) ;;
  w <- get_world ;;
  match first_nonempty w keys with
  | None => ret None
  | Some k =>
      let l := redis_list w k in
      store_list k (removelast l) ;;
      ret (Some (k, List.last l ""))
  end.

(** The pipeline [lrange(key, 0, -1); delete(key)], run as one transaction;
    the result kept is that of [lrange]. *)
Definition redis_lrange_delete (key : string) : M (list string) :=
  log (EvLrangeDelete key) ;;
  w <- get_world ;;
  store_list key [] ;;
  ret (redis_list w key).

(** ** The handlers of [v1.py] *)

Inductive body : Type :=
| Text (s : string)
| Jsonify (kwargs : list (string * json))
| SendFile (content : string).

(** A handler's return value: the body and the HTTP status (200 when the
    source returns the body alone). *)
Definition response : Type := body * Z.

Definition as_str (v : json) : res string :=
  match v with
  | JStr s => Ret s
  | _ => Raise TypeError
  end.

(** Truth value of a [bytes] object or [None]. *)
Definition bytes_truthy (b : option string) : bool :=
  match b with
  | Some (String _ _) => true
  | _ => false
  end.

Section Handlers.

(** [testflinger.app.config.get('DATA_PATH')] *)
Variable DATA_PATH : string.

Definition submit_job (job_queue : json) (data : string) : M unit :=
  key <- lift (redis_encode job_queue) ;;
  redis_lpush key data.

Definition get_job (queue_list : list string) : M (option string) :=
  try_except
    (popped <- redis_brpop queue_list 1 ;;
     match popped with
     | Some (_, job) => ret (Some job)
     | None => raise TypeError
     end)
    (fun e => match e with TypeError => ret None | _ => raise e end).

(** Lines 54 to 63 of [job_post], reached from both branches on [job_id]. *)
Definition job_post_enqueue (job_queue job_id data : json) : M response :=
  submit_job job_queue (json_dumps data) ;;
  name <- lift (as_str job_id) ;;
  let result_file := os_path_join DATA_PATH name in
  present <- os_path_exists result_file ;;
  let job_state := if present : bool then "resubmitted" else "waiting" in
  file_write result_file (json_dumps (JDict [("job_state", JStr job_state)])) ;;
  ret (Jsonify [("job_id", job_id)], 200).

(** [rnd] is the randomness [uuid.uuid4()] draws when it is called. *)
Definition job_post (data : json) (rnd : Z) : M response :=
  job_queue <- try_except (lift (py_get data "job_queue"))
                 (fun e => match e with
                           | AttributeError => ret JNull
                           | _ => raise e
                           end) ;;
  if negb (truthy job_queue) then
    ret (Text ("Invalid data or no job_queue specified" ++ nl), 400)
  else
    job_id <- lift (py_get data "job_id") ;;
    if negb (truthy job_id) then
      let job_id := JStr (uuid_str (uuid4 rnd)) in
      data <- lift (py_setitem data "job_id" job_id) ;;
      job_post_enqueue job_queue job_id data
    else
      valid <- lift (check_valid_uuid job_id) ;;
      if negb valid then ret (Text ("Invalid job_id specified" ++ nl), 400)
      else job_post_enqueue job_queue job_id data.

Definition job_get (queue_list : list string) : M response :=
  match queue_list with
  | [] => ret (Text "No queue(s) specified in request", 400)
  | _ =>
      job <- get_job queue_list ;;
      if bytes_truthy job then ret (Text (default "" job), 200)
      else ret (Text "", 204)
  end.

Definition invalid_job_id : response := (Text ("Invalid job id" ++ nl), 400).

Definition result_post (job_id : string) (data : json) : M response :=
  valid <- lift (check_valid_uuid (JStr job_id)) ;;
  if negb valid then ret invalid_job_id
  else
    let result_file := os_path_join DATA_PATH job_id in
    file_write result_file (json_dumps data) ;;
    ret (Text "OK", 200).

Definition result_get (job_id : string) : M response :=
  valid <- lift (check_valid_uuid (JStr job_id)) ;;
  if negb valid then ret invalid_job_id
  else
    let result_file := os_path_join DATA_PATH job_id in
    present <- os_path_exists result_file ;;
    if negb present then ret (Text "", 204)
    else
      data <- file_read result_file ;;
      ret (Text data, 200).

(** [file] is the upload named ['file'] of the request, if there is one;
    [request.files['file']] raises when there is none. *)
Definition artifacts_post (job_id : string) (file : option string) : M response :=
  valid <- lift (check_valid_uuid (JStr job_id)) ;;
  if negb valid then ret invalid_job_id
  else
    match file with
    | None => raise BadRequestKeyError
    | Some content =>
        let filename := job_id ++ ".artifact" in
        file_write (os_path_join DATA_PATH filename) content ;;
        ret (Text "OK", 200)
    end.

Definition artifacts_get (job_id : string) : M response :=
  valid <- lift (check_valid_uuid (JStr job_id)) ;;
  if negb valid then ret invalid_job_id
  else
    let artifact_file := os_path_join DATA_PATH (job_id ++ ".artifact") in
    present <- os_path_exists artifact_file ;;
    if negb present then ret (Text "", 204)
    else
      content <- file_read artifact_file ;;
      ret (SendFile content, 200).

Definition output_get (job_id : string) : M response :=
  valid <- lift (check_valid_uuid (JStr job_id)) ;;
  if negb valid then ret invalid_job_id
  else
    let output_key := "stream_" ++ job_id in
    output0 <- redis_lrange_delete output_key ;;
    match output0 with
    | _ :: _ =>
        lines <- lift (decode_all output0) ;;
        ret (Text (str_join nl lines), 200)
    | [] => ret (Text "", 204)
    end.

(** [data] is [request.get_data()], the raw body. *)
Definition output_post (job_id : string) (data : string) : M response :=
  valid <- lift (check_valid_uuid (JStr job_id)) ;;
  if negb valid then ret invalid_job_id
  else
    let output_key := "stream_" ++ job_id in
    redis_rpush output_key data ;;
    redis_expire output_key 14400 ;;
    ret (Text "OK", 200).

(** *** Requests, one per handler, and runs of them *)

Inductive request : Type :=
| JobPost (data : json) (rnd : Z)
| JobGet (queue_list : list string)
| ResultPost (job_id : string) (data : json)
| ResultGet (job_id : string)
| ArtifactsPost (job_id : string) (file : option string)
| ArtifactsGet (job_id : string)
| OutputGet (job_id : string)
| OutputPost (job_id : string) (data : string).

Definition handle (r : request) : M response :=
  match r with
  | JobPost data rnd => job_post data rnd
  | JobGet queue_list => job_get queue_list
  | ResultPost job_id data => result_post job_id data
  | ResultGet job_id => result_get job_id
  | ArtifactsPost job_id file => artifacts_post job_id file
  | ArtifactsGet job_id => artifacts_get job_id
  | OutputGet job_id => output_get job_id
  | OutputPost job_id data => output_post job_id data
  end.

(** The world after serving the requests one after the other. *)
Fixpoint run (rs : list request) (w : world) : world :=
  match rs with
  | [] => w
  | r :: rs' => run rs' (fst (handle r w))
  end.

End Handlers.

(** ** Notions used to state the properties *)

Fixpoint str_forall (P : ascii -> bool) (s : string) : bool :=
  match s with
  | "" => true
  | String c s' => P c && str_forall P s'
  end.

(** Exactly [n] hexadecimal digits at the front of [s]; what follows. *)
Fixpoint take_hex (n : nat) (s : string) : option string :=
  match n with
  | O => Some s
  | S n' =>
      match s with
      | "" => None
      | String c s' => if is_hex c then take_hex n' s' else None
      end
  end.

(** The canonical textual form of a UUID: hexadecimal digits in groups of
    8, 4, 4, 4 and 12, with a hyphen between groups. *)
Definition is_canonical_uuid (s : string) : bool :=
  match take_hex 8 s with
  | Some (String "-" s1) =>
      match take_hex 4 s1 with
      | Some (String "-" s2) =>
          match take_hex 4 s2 with
          | Some (String "-" s3) =>
              match take_hex 4 s3 with
              | Some (String "-" s4) =>
                  match take_hex 12 s4 with
                  | Some "" => true
                  | _ => false
                  end
              | _ => false
              end
          | _ => false
          end
      | _ => false
      end
  | _ => false
  end.

(** Characters [int(_, 16)] can accept somewhere in a literal. *)
Definition int_char (c : ascii) : bool :=
  is_hex c || int_space c || str_mem c "+-_xX".

(** Characters that can occur in a text [uuid.UUID] accepts. *)
Definition uuid_char (c : ascii) : bool :=
  int_char c || str_mem c "urn:uuid:{}-".

(** The value of a run of hexadecimal digits, most significant first. *)
Fixpoint hex_value (acc : Z) (s : string) : Z :=
  match s with
  | "" => acc
  | String c s' => hex_value (16 * acc + default 0 (hex_digit_value c)) s'
  end.

(** The content of the result record [job_post] writes. *)
Definition state_record (job_state : string) : string :=
  json_dumps (JDict [("job_state", JStr job_state)]).

Definition result_path (DATA_PATH job_id : string) : string :=
  os_path_join DATA_PATH job_id.

Definition artifact_path (DATA_PATH job_id : string) : string :=
  os_path_join DATA_PATH (job_id ++ ".artifact").

Definition stream_key (job_id : string) : string := "stream_" ++ job_id.

(** The payload has no usable [job_queue]: it is not an object, or the
    field is missing, or its value is empty (false in Python). *)
Definition no_job_queue (data : json) : Prop :=
  match data with
  | JDict d =>
      match dict_lookup "job_queue" d with
      | None => True
      | Some v => truthy v = false
      end
  | _ => True
  end.

(** The world with [evs] added to the trace. *)
Definition add_trace (evs : list event) (w : world) : world :=
  mkWorld (files w) (lists w) (expiry w) (trace w ++ evs).

(** The world with the Redis list at [key] set to [l]. *)
Definition put_list (key : string) (l : list string) (w : world) : world :=
  match l with
  | [] => mkWorld (files w) (delete key (lists w)) (delete key (expiry w)) (trace w)
  | _ => mkWorld (files w) (<[key := l]> (lists w)) (expiry w) (trace w)
  end.

(** The world with [content] in the file at [path]. *)
Definition put_file (path content : string) (w : world) : world :=
  mkWorld (<[path := content]> (files w)) (lists w) (expiry w) (trace w).

(** The state [job_post] records for an id, from what the directory holds. *)
Definition next_state (DATA_PATH job_id : string) (w : world) : string :=
  if bool_decide (is_Some (files w !! result_path DATA_PATH job_id))
  then "resubmitted" else "waiting".

(** A submission the service accepts: the payload [d] names the non-empty
    queue [q], and its job id is either absent (then [job_id] is the fresh
    one drawn from [rnd], attached to the payload) or the valid [job_id].
    [data] is the payload that gets serialized. *)
Definition accepted_submission (d : list (string * json)) (rnd : Z)
    (q job_id : string) (data : json) : Prop :=
  dict_lookup "job_queue" d = Some (JStr q) /\ q <> "" /\
  ((truthy (default JNull (dict_lookup "job_id" d)) = false /\
    job_id = uuid_str (uuid4 rnd) /\
    data = JDict (dict_set "job_id" (JStr job_id) d))
   \/
   (dict_lookup "job_id" d = Some (JStr job_id) /\
    check_valid_uuid (JStr job_id) = Ret true /\
    data = JDict d)).

(** Every file of [w] is still there in [w']. *)
Definition files_grow (w w' : world) : Prop :=
  forall path, is_Some (files w !! path) -> is_Some (files w' !! path).

(** A command that removes no file, whatever its result. *)
Definition keeps_files {A : Type} (c : M A) : Prop :=
  forall w, files_grow w (fst (c w)).

(** A text [uuid.UUID] accepts that is 256 characters long: 56 times
    [urn:], then 32 hexadecimal digits. *)
Definition long_valid_id : string :=
  "urn:urn:urn:urn:urn:urn:urn:urn:urn:urn:urn:urn:urn:urn:urn:urn:urn:urn:urn:urn:urn:urn:urn:urn:urn:urn:urn:urn:urn:urn:urn:urn:urn:urn:urn:urn:urn:urn:urn:urn:urn:urn:urn:urn:urn:urn:urn:urn:urn:urn:urn:urn:urn:urn:urn:urn:12345678123456781234567812345678".

(** * Properties *)

Ltac unfold_M :=
  unfold bind, try_except, ret, raise, lift, log, get_world,
    set_files, set_lists, set_expiry in *.

(** ** Validation *)

(** C10: [check_valid_uuid] returns a boolean for every Python value, and
    the boolean is [False] whenever [uuid.UUID] raises; a value that is not
    a string ([None], a number, a list, a dict) always gives [False]. *)
Theorem check_valid_uuid_total (job_id : json) :
  (exists b : bool,
      check_valid_uuid job_id = Ret b /\
      match uuid_UUID job_id with
      | Raise _ => b = false
      | Ret _ => b = true
      end) /\
  match job_id with
  | JStr _ => True
  | _ => check_valid_uuid job_id = Ret false
  end.
Proof.
  split.
  - unfold check_valid_uuid. destruct (uuid_UUID job_id) as [n|e].
    + exists true. split; reflexivity.
    + exists false. split; reflexivity.
  - destruct job_id; try exact I; reflexivity.
Qed.

(** ** Rejected requests leave the stores alone *)

(** C8: a submission whose payload lacks [job_queue], or has an empty value
    for it, is answered 400 (invalid request) and the world is unchanged:
    nothing is pushed, no file is written, no store is even read. *)
Theorem job_post_no_queue (DATA_PATH : string) (data : json) (rnd : Z) (w : world) :
  no_job_queue data ->
  job_post DATA_PATH data rnd w
  = (w, Ret (Text ("Invalid data or no job_queue specified" ++ nl), 400)).
Proof.
  intros H. unfold job_post. unfold_M.
  destruct data as [ | b | z | f | s | l | d]; simpl in *; try reflexivity.
  destruct (dict_lookup "job_queue" d) as [v|]; simpl.
  - rewrite H. reflexivity.
  - reflexivity.
Qed.

Lemma job_post_no_queue_witness :
  no_job_queue (JDict [("job_queue", JStr ""); ("job_id", JStr "x")]) /\
  job_post "/srv/data" (JDict [("job_queue", JStr ""); ("job_id", JStr "x")]) 7 empty_world
  = (empty_world, Ret (Text ("Invalid data or no job_queue specified" ++ nl), 400)).
Proof.
  split; [reflexivity | apply job_post_no_queue; reflexivity].
Defined.

Lemma job_post_invalid_id (DATA_PATH : string) (d : list (string * json))
    (job_queue job_id : json) (rnd : Z) (w : world) :
  dict_lookup "job_queue" d = Some job_queue -> truthy job_queue = true ->
  dict_lookup "job_id" d = Some job_id -> truthy job_id = true ->
  check_valid_uuid job_id = Ret false ->
  job_post DATA_PATH (JDict d) rnd w
  = (w, Ret (Text ("Invalid job_id specified" ++ nl), 400)).
Proof.
  intros Hq Hqt Hi Hit Hv. unfold job_post. unfold_M. simpl.
  rewrite Hq. simpl. rewrite Hqt. simpl. rewrite Hi. simpl. rewrite Hit. simpl.
  rewrite Hv. reflexivity.
Qed.

(** C6 (amended): with an id string that fails validation, result write and
    read, artifact write and read, output drain and append answer 400
    (invalid job id) and leave the world, trace included, as it was; so
    does a submission that names a queue and supplies such an id, provided
    the id is not the empty string. *)
Theorem invalid_job_id_no_access (DATA_PATH job_id : string) (w : world) :
  check_valid_uuid (JStr job_id) = Ret false ->
  (forall data, result_post DATA_PATH job_id data w = (w, Ret invalid_job_id)) /\
  result_get DATA_PATH job_id w = (w, Ret invalid_job_id) /\
  (forall file, artifacts_post DATA_PATH job_id file w = (w, Ret invalid_job_id)) /\
  artifacts_get DATA_PATH job_id w = (w, Ret invalid_job_id) /\
  output_get job_id w = (w, Ret invalid_job_id) /\
  (forall data, output_post job_id data w = (w, Ret invalid_job_id)) /\
  (forall d job_queue rnd,
      job_id <> "" ->
      dict_lookup "job_queue" d = Some job_queue -> truthy job_queue = true ->
      dict_lookup "job_id" d = Some (JStr job_id) ->
      job_post DATA_PATH (JDict d) rnd w
      = (w, Ret (Text ("Invalid job_id specified" ++ nl), 400))).
Proof.
  intros Hv.
  unfold result_post, result_get, artifacts_post, artifacts_get, output_get,
    output_post.
  unfold_M. rewrite Hv. simpl.
  repeat split; try reflexivity.
  intros d job_queue rnd Hne Hq Hqt Hi.
  apply (job_post_invalid_id DATA_PATH d job_queue (JStr job_id)); auto.
  simpl. destruct job_id; [congruence | reflexivity].
Qed.

Lemma invalid_job_id_no_access_witness :
  check_valid_uuid (JStr "not-a-uuid") = Ret false /\
  result_get "/srv/data" "not-a-uuid" empty_world = (empty_world, Ret invalid_job_id) /\
  output_get "not-a-uuid" empty_world = (empty_world, Ret invalid_job_id).
Proof.
  assert (Hv : check_valid_uuid (JStr "not-a-uuid") = Ret false)
    by (vm_compute; reflexivity).
  pose proof (invalid_job_id_no_access "/srv/data" "not-a-uuid" empty_world Hv) as H.
  split; [exact Hv | split; [apply H | apply H]].
Defined.

(** C6 as stated fails for a submission: the empty string fails validation,
    yet a submission that supplies it is not rejected; a fresh id is drawn,
    the job is pushed and a result record is written. *)
Lemma submit_empty_id_accepted :
  let data := JDict [("job_queue", JStr "q"); ("job_id", JStr "")] in
  let fresh := "00000000-0000-4000-8000-000000000000" in
  let out := job_post "/srv/data" data 0 empty_world in
  py_get data "job_id" = Ret (JStr "") /\
  check_valid_uuid (JStr "") = Ret false /\
  snd out = Ret (Jsonify [("job_id", JStr fresh)], 200) /\
  trace (fst out)
  = [EvLpush "q" (json_dumps (JDict [("job_queue", JStr "q"); ("job_id", JStr fresh)]));
     EvExists ("/srv/data/" ++ fresh);
     EvWrite ("/srv/data/" ++ fresh) (state_record "waiting")] /\
  fst out <> empty_world.
Proof.
  vm_compute. repeat split; try reflexivity; discriminate.
Qed.

(** ** The store primitives, as functions on the world *)

Lemma store_list_eq (key : string) (l : list string) (w : world) :
  store_list key l w = (put_list key l w, Ret tt).
Proof.
  unfold store_list, put_list. unfold_M. destruct l; reflexivity.
Qed.

Lemma redis_list_put_list (key key' : string) (l : list string) (w : world) :
  redis_list (put_list key l w) key'
  = if decide (key = key') then l else redis_list w key'.
Proof.
  unfold redis_list, put_list.
  destruct l as [|x l]; simpl; case_decide; subst.
  - by rewrite lookup_delete_eq.
  - by rewrite lookup_delete_ne.
  - by rewrite lookup_insert_eq.
  - by rewrite lookup_insert_ne.
Qed.

Lemma redis_lpush_eq (key value : string) (w : world) :
  redis_lpush key value w
  = (put_list key (value :: redis_list w key) (add_trace [EvLpush key value] w), Ret tt).
Proof.
  unfold redis_lpush. unfold_M. simpl. rewrite store_list_eq. reflexivity.
Qed.

Lemma redis_rpush_eq (key value : string) (w : world) :
  redis_rpush key value w
  = (put_list key (redis_list w key ++ [value]) (add_trace [EvRpush key value] w), Ret tt).
Proof.
  unfold redis_rpush. unfold_M. simpl. rewrite store_list_eq. reflexivity.
Qed.

Lemma redis_lrange_delete_eq (key : string) (w : world) :
  redis_lrange_delete key w
  = (put_list key [] (add_trace [EvLrangeDelete key] w), Ret (redis_list w key)).
Proof. reflexivity. Qed.

Lemma first_nonempty_lists (w w' : world) (keys : list string) :
  lists w = lists w' -> first_nonempty w keys = first_nonempty w' keys.
Proof.
  intros H. induction keys as [|k ks IH]; simpl; [reflexivity|].
  unfold redis_list. rewrite H, IH. reflexivity.
Qed.

Lemma redis_brpop_eq (keys : list string) (timeout : positive) (w : world) :
  redis_brpop keys timeout w
  = match first_nonempty w keys with
    | None => (add_trace [EvBrpop keys timeout] w, Ret None)
    | Some k =>
        (put_list k (removelast (redis_list w k)) (add_trace [EvBrpop keys timeout] w),
         Ret (Some (k, List.last (redis_list w k) "")))
    end.
Proof.
  unfold redis_brpop. unfold_M. simpl.
  match goal with
  | |- context [first_nonempty ?w0 keys] =>
      rewrite (first_nonempty_lists w0 w keys eq_refl)
  end.
  destruct (first_nonempty w keys) as [k|]; [|reflexivity].
  rewrite store_list_eq. reflexivity.
Qed.

Lemma os_path_exists_eq (path : string) (w : world) :
  os_path_exists path w
  = (add_trace [EvExists path] w, Ret (bool_decide (is_Some (files w !! path)))).
Proof. reflexivity. Qed.

Lemma file_write_eq (path content : string) (w : world) :
  path_ok path = true ->
  file_write path content w
  = (put_file path content (add_trace [EvWrite path content] w), Ret tt).
Proof. intros H. unfold file_write, bind, log. rewrite H. reflexivity. Qed.

Lemma file_write_refused (path content : string) (w : world) :
  path_ok path = false ->
  file_write path content w = (add_trace [EvWrite path content] w, Raise OSError).
Proof. intros H. unfold file_write, bind, log. rewrite H. reflexivity. Qed.

Lemma file_read_eq (path content : string) (w : world) :
  files w !! path = Some content ->
  file_read path w = (add_trace [EvRead path] w, Ret content).
Proof.
  intros H. unfold file_read. unfold_M. simpl. rewrite H. reflexivity.
Qed.

(** ** Claiming a job *)

Lemma get_job_eq (queue_list : list string) (w : world) :
  get_job queue_list w
  = match first_nonempty w queue_list with
    | None => (add_trace [EvBrpop queue_list 1] w, Ret None)
    | Some k =>
        (put_list k (removelast (redis_list w k)) (add_trace [EvBrpop queue_list 1] w),
         Ret (Some (List.last (redis_list w k) "")))
    end.
Proof.
  unfold get_job, try_except, bind. rewrite redis_brpop_eq.
  destruct (first_nonempty w queue_list); reflexivity.
Qed.

Lemma job_get_available (queue_list : list string) (w : world) (k job : string) :
  queue_list <> [] -> first_nonempty w queue_list = Some k ->
  List.last (redis_list w k) "" = job -> job <> "" ->
  job_get queue_list w
  = (put_list k (removelast (redis_list w k)) (add_trace [EvBrpop queue_list 1] w),
     Ret (Text job, 200)).
Proof.
  intros Hne Hsome Hlast Hjob. destruct queue_list as [|q qs]; [congruence|].
  unfold job_get, bind. rewrite get_job_eq, Hsome. rewrite Hlast.
  destruct job; [congruence | reflexivity].
Qed.

(** C7 (amended): [job_get] answers 400 (invalid request) for an empty
    queue list without touching a store; for a non-empty list with nothing
    on any named queue, the single pop with its timeout of 1 second comes
    back empty and the answer is 204 with an empty body, not an error; and
    when a record is available and is not the empty byte string, it is
    taken off the right end of the first non-empty queue and returned with
    status 200, the queue name dropped. *)
Theorem job_get_spec (queue_list : list string) (w : world) :
  job_get [] w = (w, Ret (Text "No queue(s) specified in request", 400)) /\
  (queue_list <> [] -> first_nonempty w queue_list = None ->
   job_get queue_list w
   = (add_trace [EvBrpop queue_list 1] w, Ret (Text "", 204))) /\
  (forall k job,
      queue_list <> [] -> first_nonempty w queue_list = Some k ->
      List.last (redis_list w k) "" = job -> job <> "" ->
      job_get queue_list w
      = (put_list k (removelast (redis_list w k)) (add_trace [EvBrpop queue_list 1] w),
         Ret (Text job, 200))).
Proof.
  split; [reflexivity|]. split.
  - intros Hne Hnone. destruct queue_list as [|q qs]; [congruence|].
    unfold job_get, bind. rewrite get_job_eq, Hnone. reflexivity.
  - intros k job. apply job_get_available.
Qed.

Lemma job_get_spec_witness :
  let w := put_list "q" ["j2"; "j1"] empty_world in
  job_get ["p"; "q"] w
  = (put_list "q" ["j2"] (add_trace [EvBrpop ["p"; "q"] 1] w), Ret (Text "j1", 200)) /\
  job_get ["p"] w = (add_trace [EvBrpop ["p"] 1] w, Ret (Text "", 204)).
Proof.
  intros w. split.
  - apply (job_get_spec ["p"; "q"] w); [discriminate | reflexivity | reflexivity | discriminate].
  - apply (job_get_spec ["p"] w); [discriminate | reflexivity].
Defined.

(** C7 as stated fails for an empty record: after an output append with an
    empty body, the stream key holds one record; a claim naming that key
    pops it and still answers 204 (no job available). *)
Lemma job_get_empty_record :
  let id := "12345678-1234-5678-1234-567812345678" in
  let w := fst (output_post id "" empty_world) in
  first_nonempty w [stream_key id] = Some (stream_key id) /\
  redis_list w (stream_key id) = [""] /\
  snd (job_get [stream_key id] w) = Ret (Text "", 204) /\
  redis_list (fst (job_get [stream_key id] w)) (stream_key id) = [].
Proof.
  vm_compute. repeat split; reflexivity.
Qed.

(** ** Submission *)

Lemma job_post_enqueue_eq (DATA_PATH q job_id : string) (data : json) (w : world) :
  path_ok (result_path DATA_PATH job_id) = true ->
  let payload := json_dumps data in
  let path := result_path DATA_PATH job_id in
  let record := state_record (next_state DATA_PATH job_id w) in
  job_post_enqueue DATA_PATH (JStr q) (JStr job_id) data w
  = (put_file path record
       (add_trace [EvLpush q payload; EvExists path; EvWrite path record]
          (put_list q (payload :: redis_list w q) w)),
     Ret (Jsonify [("job_id", JStr job_id)], 200)).
Proof.
  intros Hok payload path record.
  unfold job_post_enqueue, submit_job, bind, lift, ret, redis_encode, as_str.
  rewrite redis_lpush_eq, os_path_exists_eq, file_write_eq by exact Hok.
  unfold put_file, add_trace, put_list, next_state, result_path in *. simpl.
  subst payload path record. unfold next_state, result_path.
  rewrite <- !app_assoc. reflexivity.
Qed.

(** When the file system refuses the result path, the job has been pushed
    by the time [open] raises. *)
Lemma job_post_enqueue_refused (DATA_PATH q job_id : string) (data : json) (w : world) :
  path_ok (result_path DATA_PATH job_id) = false ->
  let payload := json_dumps data in
  let path := result_path DATA_PATH job_id in
  let record := state_record (next_state DATA_PATH job_id w) in
  job_post_enqueue DATA_PATH (JStr q) (JStr job_id) data w
  = (add_trace [EvLpush q payload; EvExists path; EvWrite path record]
       (put_list q (payload :: redis_list w q) w),
     Raise OSError).
Proof.
  intros Hok payload path record.
  unfold job_post_enqueue, submit_job, bind, lift, ret, redis_encode, as_str.
  rewrite redis_lpush_eq, os_path_exists_eq, file_write_refused by exact Hok.
  unfold add_trace, put_list, next_state, result_path in *. simpl.
  subst payload path record. unfold next_state, result_path.
  rewrite <- !app_assoc. reflexivity.
Qed.

Lemma job_post_enqueue_lists (DATA_PATH q job_id : string) (data : json) (w : world) :
  lists (fst (job_post_enqueue DATA_PATH (JStr q) (JStr job_id) data w))
  = <[q := json_dumps data :: redis_list w q]> (lists w) /\
  expiry (fst (job_post_enqueue DATA_PATH (JStr q) (JStr job_id) data w)) = expiry w.
Proof.
  destruct (path_ok (result_path DATA_PATH job_id)) eqn:Hok.
  - rewrite (job_post_enqueue_eq _ _ _ _ _ Hok). split; reflexivity.
  - rewrite (job_post_enqueue_refused _ _ _ _ _ Hok). split; reflexivity.
Qed.

Lemma truthy_JStr (s : string) : s <> "" -> truthy (JStr s) = true.
Proof. destruct s; [congruence | reflexivity]. Qed.

Lemma check_valid_uuid_nonempty (s : string) :
  check_valid_uuid (JStr s) = Ret true -> s <> "".
Proof. intros H ->. vm_compute in H. discriminate. Qed.

Lemma job_post_accepted (DATA_PATH : string) (d : list (string * json)) (rnd : Z)
    (q job_id : string) (data : json) (w : world) :
  accepted_submission d rnd q job_id data ->
  job_post DATA_PATH (JDict d) rnd w
  = job_post_enqueue DATA_PATH (JStr q) (JStr job_id) data w.
Proof.
  intros (Hq & Hne & Hid). unfold job_post.
  unfold bind at 1. unfold try_except, lift, py_get. rewrite Hq.
  cbn [default from_option id]. rewrite (truthy_JStr q Hne). cbn [negb].
  unfold bind at 1.
  destruct Hid as [(Hf & -> & ->) | (Hi & Hv & ->)].
  - rewrite Hf. cbn [negb]. reflexivity.
  - rewrite Hi. cbn [default from_option id].
    rewrite (truthy_JStr job_id (check_valid_uuid_nonempty _ Hv)). cbn [negb].
    unfold bind at 1. rewrite Hv. reflexivity.
Qed.

Lemma files_after_submit (path record : string) (evs : list event) (w : world) :
  files (put_file path record (add_trace evs w)) !! path = Some record.
Proof. simpl. apply lookup_insert_eq. Qed.

Lemma next_state_after (DATA_PATH job_id : string) (w : world) :
  is_Some (files w !! result_path DATA_PATH job_id) ->
  next_state DATA_PATH job_id w = "resubmitted".
Proof.
  intros H. unfold next_state. rewrite bool_decide_eq_true_2; auto.
Qed.

Lemma dict_lookup_set (k : string) (v : json) (d : list (string * json)) :
  dict_lookup k (dict_set k v d) = Some v.
Proof.
  induction d as [|[k' v'] d IH]; cbn [dict_set dict_lookup].
  - rewrite String.eqb_refl. reflexivity.
  - destruct (String.eqb k k') eqn:E; cbn [dict_lookup]; rewrite E; auto.
Qed.

(** The payload that is serialized carries the job id. *)
Lemma accepted_submission_id (d : list (string * json)) (rnd : Z)
    (q job_id : string) (data : json) :
  accepted_submission d rnd q job_id data ->
  py_get data "job_id" = Ret (JStr job_id).
Proof.
  intros (_ & _ & [(_ & _ & ->) | (Hi & _ & ->)]); cbn [py_get].
  - rewrite dict_lookup_set. reflexivity.
  - rewrite Hi. reflexivity.
Qed.

(** C1 (amended): an accepted submission (non-empty queue name; job id
    valid, or absent and then freshly generated) whose result path the file
    system takes first pushes the serialized payload, id attached, on the
    left of the named queue, then tests whether the result file of the id
    exists, then writes the record ['resubmitted'] if it did and ['waiting']
    otherwise, and returns the id.  Two such submissions with the same id to
    queue [q] leave ['resubmitted'] in the record and two more entries on
    the queue. *)
Theorem job_post_effects (DATA_PATH : string) (w : world) :
  (forall d rnd q job_id data,
      accepted_submission d rnd q job_id data ->
      path_ok (result_path DATA_PATH job_id) = true ->
      let path := result_path DATA_PATH job_id in
      let record :=
        state_record (if bool_decide (is_Some (files w !! path))
                      then "resubmitted" else "waiting") in
      py_get data "job_id" = Ret (JStr job_id) /\
      exists w',
        job_post DATA_PATH (JDict d) rnd w
        = (w', Ret (Jsonify [("job_id", JStr job_id)], 200)) /\
        trace w' = (trace w ++ [EvLpush q (json_dumps data);
                                EvExists path; EvWrite path record])%list /\
        lists w' !! q = Some (json_dumps data :: redis_list w q) /\
        files w' !! path = Some record) /\
  (forall d1 rnd1 data1 d2 rnd2 data2 q job_id,
      accepted_submission d1 rnd1 q job_id data1 ->
      accepted_submission d2 rnd2 q job_id data2 ->
      path_ok (result_path DATA_PATH job_id) = true ->
      let path := result_path DATA_PATH job_id in
      let w1 := fst (job_post DATA_PATH (JDict d1) rnd1 w) in
      let w2 := fst (job_post DATA_PATH (JDict d2) rnd2 w1) in
      files w2 !! path = Some (state_record "resubmitted") /\
      lists w2 !! q = Some (json_dumps data2 :: json_dumps data1 :: redis_list w q) /\
      exists record1,
        trace w2 = (trace w ++ [EvLpush q (json_dumps data1);
                                EvExists path; EvWrite path record1;
                                EvLpush q (json_dumps data2);
                                EvExists path;
                                EvWrite path (state_record "resubmitted")])%list).
Proof.
  split.
  - intros d rnd q job_id data H Hok path record.
    split; [exact (accepted_submission_id _ _ _ _ _ H)|].
    rewrite (job_post_accepted _ _ _ _ _ _ _ H), (job_post_enqueue_eq _ _ _ _ _ Hok).
    eexists. split; [reflexivity|]. split; [|split].
    + reflexivity.
    + simpl. apply lookup_insert_eq.
    + simpl. apply lookup_insert_eq.
  - intros d1 rnd1 data1 d2 rnd2 data2 q job_id H1 H2 Hok path w1 w2.
    subst w2 w1.
    rewrite (job_post_accepted _ _ _ _ _ _ _ H1), (job_post_enqueue_eq _ _ _ _ _ Hok).
    cbn [fst].
    rewrite (job_post_accepted _ _ _ _ _ _ _ H2), (job_post_enqueue_eq _ _ _ _ _ Hok).
    cbn [fst].
    rewrite (next_state_after DATA_PATH job_id (put_file _ _ _))
      by (rewrite files_after_submit; eauto).
    split; [|split].
    + simpl. apply lookup_insert_eq.
    + simpl. rewrite lookup_insert_eq.
      unfold redis_list at 1. simpl. rewrite lookup_insert_eq. reflexivity.
    + eexists. simpl. rewrite <- !app_assoc. reflexivity.
Qed.

Lemma job_post_effects_witness :
  let d := [("job_queue", JStr "q");
            ("job_id", JStr "12345678-1234-5678-1234-567812345678")] in
  let path := "/srv/data/12345678-1234-5678-1234-567812345678" in
  accepted_submission d 0 "q" "12345678-1234-5678-1234-567812345678" (JDict d) /\
  exists w',
    job_post "/srv/data" (JDict d) 0 empty_world
    = (w', Ret (Jsonify [("job_id", JStr "12345678-1234-5678-1234-567812345678")], 200)) /\
    trace w' = [EvLpush "q" (json_dumps (JDict d)); EvExists path;
                EvWrite path (state_record "waiting")].
Proof.
  intros d path.
  assert (H : accepted_submission d 0 "q" "12345678-1234-5678-1234-567812345678" (JDict d)).
  { split; [reflexivity|]. split; [discriminate|]. right.
    split; [reflexivity|]. split; [vm_compute; reflexivity | reflexivity]. }
  split; [exact H|].
  destruct (proj1 (job_post_effects "/srv/data" empty_world) _ _ _ _ _ H eq_refl)
    as (_ & w' & Hrun & Htrace & _).
  exists w'. split; [exact Hrun | exact Htrace].
Defined.

(** C1 as stated fails for a valid id too long for a file name: the job is
    pushed, the existence test is made, then [open] raises; no record is
    written and no id is returned. *)
Lemma submit_long_id_raises :
  let d := [("job_queue", JStr "q"); ("job_id", JStr long_valid_id)] in
  let out := job_post "/srv/data" (JDict d) 0 empty_world in
  accepted_submission d 0 "q" long_valid_id (JDict d) /\
  String.length long_valid_id = 256%nat /\
  snd out = Raise OSError /\
  lists (fst out) !! "q" = Some [json_dumps (JDict d)] /\
  files (fst out) = files empty_world.
Proof.
  intros d out. split; [|vm_compute; repeat split; reflexivity].
  split; [reflexivity|]. split; [discriminate|]. right.
  split; [reflexivity|]. split; [vm_compute; reflexivity | reflexivity].
Qed.

(** ** First in, first out *)

Lemma accepted_submission_dict (d : list (string * json)) (rnd : Z)
    (q job_id : string) (data : json) :
  accepted_submission d rnd q job_id data -> exists d', data = JDict d'.
Proof. intros (_ & _ & [(_ & _ & ->) | (_ & _ & ->)]); eauto. Qed.

Lemma json_dumps_dict_nonempty (d : list (string * json)) :
  json_dumps (JDict d) <> "".
Proof. simpl. discriminate. Qed.

Lemma job_get_pops (q x : string) (l : list string) (w : world) :
  redis_list w q = (l ++ [x])%list ->
  redis_list (fst (job_get [q] w)) q = l /\
  snd (job_get [q] w)
  = Ret (match x with "" => (Text "", 204) | _ => (Text x, 200) end).
Proof.
  intros H. unfold job_get, bind. rewrite get_job_eq.
  assert (F : first_nonempty w [q] = Some q).
  { cbn [first_nonempty]. rewrite H. destruct l; reflexivity. }
  rewrite F, H, removelast_last, last_last. split.
  - destruct x; cbn [bytes_truthy fst ret]; rewrite redis_list_put_list;
      case_decide; congruence.
  - destruct x; reflexivity.
Qed.

Lemma claims_pop (DATA_PATH q : string) (n : nat) :
  forall (w : world) (l r : list string),
    redis_list w q = (l ++ r)%list -> length r = n ->
    redis_list (run DATA_PATH (List.repeat (JobGet [q]) n) w) q = l.
Proof.
  induction n as [|n IH]; intros w l r H Hlen.
  - destruct r; [|discriminate]. rewrite app_nil_r in H. exact H.
  - destruct r as [|x r _] using rev_ind; [discriminate|].
    rewrite length_app in Hlen. cbn [length] in Hlen.
    cbn [List.repeat run handle]. apply (IH _ l r); [|lia].
    rewrite app_assoc in H. apply (job_get_pops _ _ _ _ H).
Qed.

(** C9: a submission pushes on the left end of the queue's list and a claim
    pops from the right end, so of two jobs submitted one after the other
    to the same queue, with no one else at work, the first is handed out
    before the second: once the entries that were on the queue before have
    been claimed, the next claim naming the queue returns the first job and
    the one after it the second. *)
Theorem fifo_delivery (DATA_PATH : string) (w : world)
    (d1 d2 : list (string * json)) (rnd1 rnd2 : Z)
    (q id1 id2 : string) (data1 data2 : json) (old : list string) :
  accepted_submission d1 rnd1 q id1 data1 ->
  accepted_submission d2 rnd2 q id2 data2 ->
  redis_list w q = old ->
  let w1 := fst (job_post DATA_PATH (JDict d1) rnd1 w) in
  let w2 := fst (job_post DATA_PATH (JDict d2) rnd2 w1) in
  let w3 := run DATA_PATH (List.repeat (JobGet [q]) (length old)) w2 in
  let w4 := fst (job_get [q] w3) in
  let w5 := fst (job_get [q] w4) in
  redis_list w1 q = json_dumps data1 :: old /\
  redis_list w2 q = json_dumps data2 :: json_dumps data1 :: old /\
  redis_list w3 q = [json_dumps data2; json_dumps data1] /\
  snd (job_get [q] w3) = Ret (Text (json_dumps data1), 200) /\
  redis_list w4 q = [json_dumps data2] /\
  snd (job_get [q] w4) = Ret (Text (json_dumps data2), 200) /\
  redis_list w5 q = [].
Proof.
  intros H1 H2 Hold w1 w2 w3 w4 w5.
  assert (E1 : redis_list w1 q = json_dumps data1 :: old).
  { subst w1. rewrite (job_post_accepted _ _ _ _ _ _ _ H1). unfold redis_list at 1.
    rewrite (proj1 (job_post_enqueue_lists _ _ _ _ _)), lookup_insert_eq.
    cbn [default from_option id]. rewrite Hold. reflexivity. }
  assert (E2 : redis_list w2 q = json_dumps data2 :: json_dumps data1 :: old).
  { subst w2. rewrite (job_post_accepted _ _ _ _ _ _ _ H2). unfold redis_list at 1.
    rewrite (proj1 (job_post_enqueue_lists _ _ _ _ _)), lookup_insert_eq.
    cbn [default from_option id]. rewrite E1. reflexivity. }
  assert (E3 : redis_list w3 q = [json_dumps data2; json_dumps data1]).
  { subst w3. apply (claims_pop _ _ _ _ _ old); [exact E2 | reflexivity]. }
  destruct (accepted_submission_dict _ _ _ _ _ H1) as (d1' & D1).
  destruct (accepted_submission_dict _ _ _ _ _ H2) as (d2' & D2).
  destruct (job_get_pops q (json_dumps data1) [json_dumps data2] w3 E3) as [E4 G3].
  fold w4 in E4.
  destruct (job_get_pops q (json_dumps data2) [] w4 E4) as [E5 G4].
  fold w5 in E5.
  assert (N1 : json_dumps data1 <> "") by (rewrite D1; apply json_dumps_dict_nonempty).
  assert (N2 : json_dumps data2 <> "") by (rewrite D2; apply json_dumps_dict_nonempty).
  destruct (json_dumps data1); [congruence|].
  destruct (json_dumps data2); [congruence|].
  repeat split; assumption.
Qed.

Lemma fifo_delivery_witness :
  let d1 := [("job_queue", JStr "q"); ("n", JInt 1)] in
  let d2 := [("job_queue", JStr "q"); ("n", JInt 2)] in
  let id1 := uuid_str (uuid4 11) in
  let id2 := uuid_str (uuid4 22) in
  let w := put_list "q" ["older"] empty_world in
  let w2 := fst (job_post "/srv/data" (JDict d2) 22
                   (fst (job_post "/srv/data" (JDict d1) 11 w))) in
  let w3 := fst (job_get ["q"] w2) in
  snd (job_get ["q"] w2) = Ret (Text "older", 200) /\
  snd (job_get ["q"] w3)
  = Ret (Text (json_dumps (JDict (d1 ++ [("job_id", JStr id1)]))), 200) /\
  snd (job_get ["q"] (fst (job_get ["q"] w3)))
  = Ret (Text (json_dumps (JDict (d2 ++ [("job_id", JStr id2)]))), 200).
Proof.
  intros d1 d2 id1 id2 w w2 w3.
  assert (H1 : accepted_submission d1 11 "q" id1 (JDict (d1 ++ [("job_id", JStr id1)]))).
  { split; [reflexivity|]. split; [discriminate|]. left. repeat split. }
  assert (H2 : accepted_submission d2 22 "q" id2 (JDict (d2 ++ [("job_id", JStr id2)]))).
  { split; [reflexivity|]. split; [discriminate|]. left. repeat split. }
  pose proof (fifo_delivery "/srv/data" w d1 d2 11 22 "q" id1 id2 _ _ ["older"]
                H1 H2 eq_refl) as F.
  cbv zeta in F. cbn [length List.repeat run handle] in F.
  destruct F as (_ & _ & _ & F3 & _ & F4 & _).
  split; [vm_compute; reflexivity|]. split; [exact F3 | exact F4].
Defined.

(** ** The output stream *)

Lemma redis_expire_eq (key : string) (seconds : Z) (w : world) :
  redis_expire key seconds w
  = (match redis_list w key with
     | [] => add_trace [EvExpire key seconds] w
     | _ => mkWorld (files w) (lists w) (<[key := seconds]> (expiry w))
              (trace w ++ [EvExpire key seconds])
     end, Ret tt).
Proof.
  unfold redis_expire, bind, log, get_world.
  change (redis_list _ key) with (redis_list w key).
  destruct (redis_list w key); reflexivity.
Qed.

Lemma output_post_eq (job_id data : string) (w : world) :
  check_valid_uuid (JStr job_id) = Ret true ->
  let key := stream_key job_id in
  output_post job_id data w
  = (mkWorld (files w) (<[key := (redis_list w key ++ [data])%list]> (lists w))
       (<[key := 14400]> (expiry w))
       (trace w ++ [EvRpush key data; EvExpire key 14400]),
     Ret (Text "OK", 200)).
Proof.
  intros Hv key. unfold output_post, bind, lift. rewrite Hv. cbn [negb].
  fold (stream_key job_id). fold key.
  rewrite redis_rpush_eq, redis_expire_eq, redis_list_put_list.
  rewrite decide_True by reflexivity.
  destruct (redis_list w key) as [|x l] eqn:E; cbn [app put_list add_trace];
    cbn [files lists expiry trace]; unfold add_trace; cbn [files lists expiry trace];
    rewrite <- app_assoc; reflexivity.
Qed.

Lemma run_output_posts (DATA_PATH job_id : string) (chunks : list string) (w : world) :
  check_valid_uuid (JStr job_id) = Ret true ->
  redis_list (run DATA_PATH (map (OutputPost job_id) chunks) w) (stream_key job_id)
  = (redis_list w (stream_key job_id) ++ chunks)%list.
Proof.
  intros Hv. revert w. induction chunks as [|c cs IH]; intros w.
  - simpl. rewrite app_nil_r. reflexivity.
  - cbn [map run handle]. rewrite IH, (output_post_eq _ _ _ Hv). cbn [fst].
    unfold redis_list at 1. cbn [lists]. rewrite lookup_insert_eq.
    cbn [default from_option id]. rewrite <- app_assoc. reflexivity.
Qed.

Lemma decode_all_valid (chunks : list string) :
  forallb utf8_valid chunks = true -> decode_all chunks = Ret chunks.
Proof.
  induction chunks as [|c cs IH]; [reflexivity|].
  cbn [forallb decode_all]. intros [Hc Hcs]%andb_prop.
  unfold bytes_decode. rewrite Hc, (IH Hcs). reflexivity.
Qed.

Lemma output_get_eq (job_id : string) (w : world) :
  check_valid_uuid (JStr job_id) = Ret true ->
  let key := stream_key job_id in
  let w' := put_list key [] (add_trace [EvLrangeDelete key] w) in
  output_get job_id w
  = match redis_list w key with
    | [] => (w', Ret (Text "", 204))
    | output0 =>
        (w', res_bind (decode_all output0)
               (fun lines => Ret (Text (str_join nl lines), 200)))
    end.
Proof.
  intros Hv key w'. unfold output_get, bind, lift. rewrite Hv. cbn [negb].
  fold (stream_key job_id). fold key. rewrite redis_lrange_delete_eq.
  destruct (redis_list w key) as [|x l]; [reflexivity|].
  destruct (decode_all (x :: l)); reflexivity.
Qed.

(** C3 (amended): after the chunks are appended, one after the other, to
    the stream of a valid id, a drain returns what the stream held before
    (nothing, for a fresh id) followed by the chunks in append order, joined
    with a newline between consecutive chunks (all of them being UTF-8
    text); a second drain right after it answers 204 with an empty body. *)
Theorem output_stream_drain (DATA_PATH job_id : string) (before chunks : list string)
    (w : world) :
  check_valid_uuid (JStr job_id) = Ret true ->
  redis_list w (stream_key job_id) = before ->
  chunks <> [] ->
  forallb utf8_valid (before ++ chunks) = true ->
  let w1 := run DATA_PATH (map (OutputPost job_id) chunks) w in
  let w2 := fst (output_get job_id w1) in
  snd (output_get job_id w1) = Ret (Text (str_join nl (before ++ chunks)), 200) /\
  redis_list w2 (stream_key job_id) = [] /\
  snd (output_get job_id w2) = Ret (Text "", 204).
Proof.
  intros Hv Hbefore Hne Hutf w1 w2.
  assert (E1 : redis_list w1 (stream_key job_id) = (before ++ chunks)%list).
  { subst w1. rewrite (run_output_posts _ _ _ _ Hv), Hbefore. reflexivity. }
  assert (G1 : output_get job_id w1
               = (put_list (stream_key job_id) []
                    (add_trace [EvLrangeDelete (stream_key job_id)] w1),
                  Ret (Text (str_join nl (before ++ chunks)), 200))).
  { rewrite (output_get_eq _ _ Hv), E1.
    destruct (before ++ chunks)%list as [|c cs] eqn:E.
    - apply app_eq_nil in E as [_ E]. congruence.
    - rewrite (decode_all_valid _ Hutf). reflexivity. }
  assert (E2 : redis_list w2 (stream_key job_id) = []).
  { subst w2. rewrite G1. cbn [fst]. rewrite redis_list_put_list.
    rewrite decide_True by reflexivity. reflexivity. }
  split; [rewrite G1; reflexivity|]. split; [exact E2|].
  rewrite (output_get_eq _ _ Hv), E2. reflexivity.
Qed.

Lemma output_stream_drain_witness :
  let id := "12345678-1234-5678-1234-567812345678" in
  let w1 := run "/srv/data" (map (OutputPost id) ["a"; "b"; "c"]) empty_world in
  snd (output_get id w1) = Ret (Text ("a" ++ nl ++ "b" ++ nl ++ "c"), 200) /\
  snd (output_get id (fst (output_get id w1))) = Ret (Text "", 204).
Proof.
  intros id w1.
  assert (Hv : check_valid_uuid (JStr id) = Ret true) by (vm_compute; reflexivity).
  pose proof (output_stream_drain "/srv/data" id [] ["a"; "b"; "c"] empty_world
                Hv eq_refl ltac:(discriminate) eq_refl) as (H1 & _ & H2).
  split; [exact H1 | exact H2].
Defined.

(** C3 as stated fails: the drain does not return the plain concatenation
    of the chunks; a newline separates them. *)
Lemma output_drain_not_concatenation :
  let id := "12345678-1234-5678-1234-567812345678" in
  let w1 := run "/srv/data" (map (OutputPost id) ["a"; "b"; "c"]) empty_world in
  snd (output_get id w1) = Ret (Text ("a" ++ nl ++ "b" ++ nl ++ "c"), 200) /\
  snd (output_get id w1) <> Ret (Text "abc", 200).
Proof.
  vm_compute. split; [reflexivity | discriminate].
Qed.

(** ** Strings: membership, replacement, stripping *)

Lemma str_mem_app (c : ascii) (a b : string) :
  str_mem c (a ++ b) = str_mem c a || str_mem c b.
Proof.
  induction a as [|x a IH]; simpl; [reflexivity|].
  rewrite IH, orb_assoc. reflexivity.
Qed.

Lemma str_forall_app (P : ascii -> bool) (a b : string) :
  str_forall P (a ++ b) = str_forall P a && str_forall P b.
Proof.
  induction a as [|x a IH]; simpl; [reflexivity|].
  rewrite IH, andb_assoc. reflexivity.
Qed.

Lemma str_forall_mem (P : ascii -> bool) (s : string) (c : ascii) :
  str_forall P s = true -> str_mem c s = true -> P c = true.
Proof.
  induction s as [|x s IH]; simpl; [discriminate|].
  intros [Hx Hs]%andb_prop [Hc | Hc]%orb_prop; [|auto].
  apply Ascii.eqb_eq in Hc. subst. exact Hx.
Qed.

Lemma str_forall_impl (P Q : ascii -> bool) (s : string) :
  (forall c, P c = true -> Q c = true) ->
  str_forall P s = true -> str_forall Q s = true.
Proof.
  intros HPQ. induction s as [|x s IH]; simpl; [reflexivity|].
  intros [Hx Hs]%andb_prop. rewrite (HPQ _ Hx), (IH Hs). reflexivity.
Qed.

Lemma prefix_nil (s : string) : String.prefix "" s = true.
Proof. destruct s; reflexivity. Qed.

Lemma prefix_cons (a c : ascii) (p s : string) :
  String.prefix (String a p) (String c s) = true ->
  a = c /\ String.prefix p s = true.
Proof.
  simpl. destruct (ascii_dec a c) as [-> | _]; [auto | discriminate].
Qed.

Lemma prefix_cons_ne (a c : ascii) (p s : string) :
  a <> c -> String.prefix (String a p) (String c s) = false.
Proof.
  intros H. simpl. destruct (ascii_dec a c); [contradiction | reflexivity].
Qed.

(** Nothing is replaced in a text that lacks the first character of [old]. *)
Lemma str_replace_absent (o : ascii) (old' new s : string) :
  str_mem o s = false -> str_replace (String o old') new s = s.
Proof.
  unfold str_replace. induction s as [|c s IH]; [reflexivity|].
  cbn [str_mem]. intros [Hc Hs]%orb_false_elim.
  cbn [str_replace_from]. rewrite prefix_cons_ne.
  - rewrite (IH Hs). reflexivity.
  - intros ->. rewrite Ascii.eqb_refl in Hc. discriminate.
Qed.

(** A character outside [old] survives the replacement of [old]. *)
Lemma str_replace_from_keeps (c o : ascii) (old' new : string) :
  str_mem c (String o old') = false ->
  forall s pending,
    String.prefix pending s = true -> str_mem c pending = false ->
    str_mem c s = true ->
    str_mem c (str_replace_from (String o old') new pending s) = true.
Proof.
  intros Hold. induction s as [|x s IH]; intros pending Hpre Hpend Hs.
  - discriminate.
  - cbn [str_replace_from]. destruct pending as [|p pending'].
    + destruct (String.prefix (String o old') (String x s)) eqn:E.
      * apply prefix_cons in E as [<- E]. cbn [str_tail].
        rewrite str_mem_app. apply orb_true_intro. right.
        cbn [str_mem] in Hold, Hs. apply orb_false_elim in Hold as [Ho Hold'].
        rewrite Ho in Hs. apply IH; auto.
      * cbn [str_mem] in *. destruct (Ascii.eqb c x); [reflexivity|].
        apply IH; auto using prefix_nil.
    + apply prefix_cons in Hpre as [<- Hpre].
      cbn [str_mem] in Hpend, Hs. apply orb_false_elim in Hpend as [Hp Hpend'].
      rewrite Hp in Hs. apply IH; auto.
Qed.

Lemma str_replace_keeps (c o : ascii) (old' new s : string) :
  str_mem c (String o old') = false -> str_mem c s = true ->
  str_mem c (str_replace (String o old') new s) = true.
Proof.
  intros Hold Hs. unfold str_replace.
  apply str_replace_from_keeps; auto using prefix_nil.
Qed.

Lemma str_lstrip_keeps (c : ascii) (chars s : string) :
  str_mem c chars = false -> str_mem c s = true ->
  str_mem c (str_lstrip chars s) = true.
Proof.
  intros Hc. induction s as [|x s IH]; [discriminate|].
  intros Hs. cbn [str_lstrip]. destruct (str_mem x chars) eqn:Ex; [|exact Hs].
  apply IH. cbn [str_mem] in Hs. apply orb_prop in Hs as [Hs|Hs]; [|exact Hs].
  apply Ascii.eqb_eq in Hs. subst. congruence.
Qed.

Lemma str_rstrip_keeps (c : ascii) (chars s : string) :
  str_mem c chars = false -> str_mem c s = true ->
  str_mem c (str_rstrip chars s) = true.
Proof.
  intros Hc. induction s as [|x s IH]; [discriminate|].
  intros Hs. cbn [str_rstrip]. cbn [str_mem] in Hs.
  destruct (Ascii.eqb c x) eqn:E.
  - apply Ascii.eqb_eq in E. subst x.
    destruct (str_rstrip chars s); [rewrite Hc|]; cbn [str_mem];
      rewrite Ascii.eqb_refl; reflexivity.
  - simpl in Hs. specialize (IH Hs).
    destruct (str_rstrip chars s); [discriminate|].
    cbn [str_mem] in *. rewrite E. exact IH.
Qed.

Lemma str_strip_keeps (c : ascii) (chars s : string) :
  str_mem c chars = false -> str_mem c s = true ->
  str_mem c (str_strip chars s) = true.
Proof.
  intros Hc Hs. unfold str_strip.
  auto using str_rstrip_keeps, str_lstrip_keeps.
Qed.

(** Stripping does nothing to a text none of whose characters is in [chars]. *)
Lemma str_strip_none (chars s : string) :
  str_forall (fun c => negb (str_mem c chars)) s = true ->
  str_strip chars s = s.
Proof.
  intros H. unfold str_strip.
  assert (L : str_lstrip chars s = s).
  { destruct s as [|x s]; [reflexivity|]. cbn [str_lstrip str_forall] in *.
    apply andb_prop in H as [Hx _]. apply negb_true_iff in Hx.
    rewrite Hx. reflexivity. }
  rewrite L. clear L. induction s as [|x s IH]; [reflexivity|].
  cbn [str_rstrip str_forall] in *. apply andb_prop in H as [Hx Hs].
  rewrite (IH Hs). apply negb_true_iff in Hx. rewrite Hx.
  destruct s; reflexivity.
Qed.

Lemma str_app_cons (c : ascii) (a b : string) :
  String c a ++ b = String c (a ++ b).
Proof. reflexivity. Qed.

Lemma str_app_nil_l (s : string) : "" ++ s = s.
Proof. reflexivity. Qed.

Lemma str_app_nil_r (s : string) : s ++ "" = s.
Proof.
  induction s as [|c s IH]; [reflexivity|].
  rewrite str_app_cons, IH. reflexivity.
Qed.

Lemma str_app_length (a b : string) :
  String.length (a ++ b) = (String.length a + String.length b)%nat.
Proof.
  induction a as [|x a IH]; [reflexivity|].
  rewrite str_app_cons. cbn [String.length]. rewrite IH. reflexivity.
Qed.

Lemma str_app_inv_head (p a b : string) : p ++ a = p ++ b -> a = b.
Proof.
  induction p as [|x p IH]; [auto|].
  rewrite !str_app_cons. intros [= H]. auto.
Qed.

(** ** Hexadecimal digits and [int(_, 16)] *)

Ltac ascii_cases c := destruct c as [[] [] [] [] [] [] [] []].

Lemma hex_digit_value_range (c : ascii) (d : Z) :
  hex_digit_value c = Some d -> 0 <= d < 16.
Proof.
  unfold hex_digit_value.
  repeat match goal with
         | |- context [if ?b then _ else _] => destruct b eqn:?
         end; intros [= <-]; lia.
Qed.

(** What a hexadecimal digit is not. *)
Lemma is_hex_other (c : ascii) :
  is_hex c = true ->
  int_space c = false /\ str_mem c "+-_xX" = false /\
  str_mem c "u{}" = false.
Proof.
  ascii_cases c; vm_compute; intros H; try discriminate H; auto.
Qed.

Lemma stop_after_hex {A : Type} (c : ascii) (x y z : A) :
  is_hex c = true ->
  match Some c with
  | Some "_"%char => x
  | Some _ => y
  | None => z
  end = y.
Proof.
  ascii_cases c; vm_compute; intros H; try discriminate H; reflexivity.
Qed.

Lemma scan_hex (h : string) :
  str_forall is_hex h = true ->
  forall c acc,
    is_hex c = true ->
    long_from_binary_base (Some c) acc h = Some (hex_value acc h, true, "").
Proof.
  induction h as [|x h IH]; intros Hh c acc Hc.
  - cbn [long_from_binary_base hex_value].
    exact (stop_after_hex c None (Some (acc, true, "")) None Hc).
  - cbn [str_forall] in Hh. apply andb_prop in Hh as [Hx Hh].
    cbn [long_from_binary_base hex_value].
    destruct (is_hex_other x Hx) as (_ & Hus & _).
    assert (Ex : Ascii.eqb x "_" = false).
    { cbn [str_mem] in Hus. repeat (apply orb_false_elim in Hus as [? Hus]). assumption. }
    rewrite Ex. pose proof Hx as Hx'. unfold is_hex in Hx'.
    destruct (hex_digit_value x) as [d|]; [|discriminate].
    cbn [default from_option id]. apply IH; assumption.
Qed.

Lemma skip_sign_hex (c : ascii) (s : string) :
  is_hex c = true -> skip_sign (String c s) = (1, String c s).
Proof.
  ascii_cases c; intros H; try discriminate H; reflexivity.
Qed.

Lemma skip_prefix_hex (s : string) :
  str_forall is_hex s = true -> skip_prefix s = s.
Proof.
  destruct s as [|c [|x s]]; intros H; try reflexivity.
  - ascii_cases c; reflexivity.
  - cbn [str_forall] in H. apply andb_prop in H as [_ [Hx _]%andb_prop].
    destruct (is_hex_other x Hx) as (_ & Hx' & _).
    cbn [str_mem] in Hx'. repeat (apply orb_false_elim in Hx' as [? Hx']).
    ascii_cases c; try reflexivity.
    cbn [skip_prefix]. replace (Ascii.eqb x "x") with false by auto.
    replace (Ascii.eqb x "X") with false by auto. reflexivity.
Qed.

Lemma not_underscore_hex {A : Type} (c : ascii) (s : string) (x y : A) :
  is_hex c = true ->
  match String c s with
  | String "_" _ => x
  | _ => y
  end = y.
Proof.
  ascii_cases c; intros H; try discriminate H; reflexivity.
Qed.

(** A non-empty run of hexadecimal digits is read as its value. *)
Lemma int_base16_hex (c : ascii) (h : string) :
  str_forall is_hex (String c h) = true ->
  int_base16 (String c h) = Ret (hex_value 0 (String c h)).
Proof.
  intros H. pose proof H as H'.
  cbn [str_forall] in H'. apply andb_prop in H' as [Hc Hh].
  destruct (is_hex_other c Hc) as (Hsp & Hus & _).
  unfold int_base16. cbn [skip_spaces]. rewrite Hsp.
  rewrite (skip_sign_hex c h Hc), (skip_prefix_hex _ H).
  rewrite (not_underscore_hex c h _ _ Hc).
  cbn [long_from_binary_base hex_value].
  assert (Ex : Ascii.eqb c "_" = false).
  { cbn [str_mem] in Hus. repeat (apply orb_false_elim in Hus as [? Hus]). assumption. }
  rewrite Ex. pose proof Hc as Hc'. unfold is_hex in Hc'.
  destruct (hex_digit_value c) as [d|]; [|discriminate].
  cbn [default from_option id]. rewrite (scan_hex h Hh c _ Hc).
  cbn [skip_spaces]. rewrite Z.mul_1_l. reflexivity.
Qed.

Lemma hex_value_bound (h : string) :
  str_forall is_hex h = true ->
  forall acc, 0 <= acc ->
    16 ^ Z.of_nat (String.length h) * acc <= hex_value acc h
    < 16 ^ Z.of_nat (String.length h) * (acc + 1).
Proof.
  induction h as [|c h IH]; intros Hh acc Hacc.
  - cbn [String.length hex_value]. change (16 ^ Z.of_nat 0) with 1. lia.
  - cbn [str_forall] in Hh. apply andb_prop in Hh as [Hc Hh].
    cbn [String.length hex_value]. unfold is_hex in Hc.
    destruct (hex_digit_value c) as [d|] eqn:E; [|discriminate].
    apply hex_digit_value_range in E. cbn [default from_option id].
    specialize (IH Hh (16 * acc + d) ltac:(lia)).
    rewrite Nat2Z.inj_succ, Z.pow_succ_r by lia.
    assert (0 < 16 ^ Z.of_nat (String.length h)) by (apply Z.pow_pos_nonneg; lia).
    nia.
Qed.

(** ** Canonical texts are accepted *)

Lemma take_hex_app (n : nat) (s r : string) :
  take_hex n s = Some r ->
  exists h, s = h ++ r /\ String.length h = n /\ str_forall is_hex h = true.
Proof.
  revert s. induction n as [|n IH]; intros s H.
  - injection H as ->. exists "". auto.
  - cbn [take_hex] in H. destruct s as [|c s]; [discriminate|].
    destruct (is_hex c) eqn:Hc; [|discriminate].
    destruct (IH _ H) as (h & -> & <- & Hh).
    exists (String c h). cbn [str_forall]. rewrite Hc, Hh. auto.
Qed.

Lemma is_canonical_uuid_groups (s : string) :
  is_canonical_uuid s = true ->
  exists h1 h2 h3 h4 h5,
    s = h1 ++ "-" ++ h2 ++ "-" ++ h3 ++ "-" ++ h4 ++ "-" ++ h5 /\
    str_forall is_hex (h1 ++ h2 ++ h3 ++ h4 ++ h5) = true /\
    String.length (h1 ++ h2 ++ h3 ++ h4 ++ h5) = 32%nat.
Proof.
  unfold is_canonical_uuid. intros H.
  repeat match type of H with
         | match take_hex ?n ?s with _ => _ end = true =>
             let E := fresh "E" in
             destruct (take_hex n s) as [[|[[] [] [] [] [] [] [] []] ?]|] eqn:E;
             try discriminate H
         end.
  apply take_hex_app in E as (h1 & -> & L1 & F1).
  apply take_hex_app in E0 as (h2 & -> & L2 & F2).
  apply take_hex_app in E1 as (h3 & -> & L3 & F3).
  apply take_hex_app in E2 as (h4 & -> & L4 & F4).
  apply take_hex_app in E3 as (h5 & -> & L5 & F5).
  exists h1, h2, h3, h4, h5. split; [|split].
  - rewrite str_app_nil_r. reflexivity.
  - rewrite !str_forall_app, F1, F2, F3, F4, F5. reflexivity.
  - rewrite !str_app_length, L1, L2, L3, L4, L5. reflexivity.
Qed.

Lemma replace_hyphen_cons (r : string) :
  str_replace_from "-" "" "" (String "-" r) = str_replace_from "-" "" "" r.
Proof. cbn [str_replace_from]. destruct r; reflexivity. Qed.

Lemma replace_hyphen_hex (h r : string) :
  str_forall is_hex h = true ->
  str_replace_from "-" "" "" (h ++ r) = h ++ str_replace_from "-" "" "" r.
Proof.
  induction h as [|c h IH]; intros Hh; [reflexivity|].
  cbn [str_forall] in Hh. apply andb_prop in Hh as [Hc Hh].
  rewrite !str_app_cons. cbn [str_replace_from].
  rewrite prefix_cons_ne, (IH Hh); [reflexivity|].
  intros <-. discriminate Hc.
Qed.

Lemma hex_or_hyphen_groups (h1 h2 h3 h4 h5 : string) (P : ascii -> bool) :
  (forall c, is_hex c = true -> P c = true) -> P "-"%char = true ->
  str_forall is_hex (h1 ++ h2 ++ h3 ++ h4 ++ h5) = true ->
  str_forall P (h1 ++ "-" ++ h2 ++ "-" ++ h3 ++ "-" ++ h4 ++ "-" ++ h5) = true.
Proof.
  intros HP Hh. rewrite !str_forall_app.
  intros (F1 & (F2 & (F3 & (F4 & F5)%andb_prop)%andb_prop)%andb_prop)%andb_prop.
  cbn [str_forall]. rewrite Hh.
  rewrite !(str_forall_impl is_hex P) by assumption. reflexivity.
Qed.

Lemma uuid_hex_part_canonical (h1 h2 h3 h4 h5 : string) :
  str_forall is_hex (h1 ++ h2 ++ h3 ++ h4 ++ h5) = true ->
  uuid_hex_part (h1 ++ "-" ++ h2 ++ "-" ++ h3 ++ "-" ++ h4 ++ "-" ++ h5)
  = h1 ++ h2 ++ h3 ++ h4 ++ h5.
Proof.
  intros Hh. unfold uuid_hex_part.
  set (s := h1 ++ "-" ++ h2 ++ "-" ++ h3 ++ "-" ++ h4 ++ "-" ++ h5).
  assert (Hu : str_mem "u" s = false).
  { destruct (str_mem "u" s) eqn:E; [|reflexivity].
    apply (str_forall_mem (fun c => negb (Ascii.eqb c "u"))) in E; [discriminate|].
    apply hex_or_hyphen_groups; auto.
    intros c Hc. destruct (is_hex_other c Hc) as (_ & _ & H).
    cbn [str_mem] in H. apply orb_false_elim in H as [H _].
    rewrite H. reflexivity. }
  rewrite (str_replace_absent "u" "rn:" "" s Hu).
  rewrite (str_replace_absent "u" "uid:" "" s Hu).
  rewrite str_strip_none.
  - subst s. unfold str_replace.
    pose proof Hh as Hh'. rewrite !str_forall_app in Hh'.
    apply andb_prop in Hh' as (F1 & (F2 & (F3 & (F4 & F5)%andb_prop)%andb_prop)%andb_prop).
    repeat (rewrite replace_hyphen_hex by assumption;
            rewrite str_app_cons, str_app_nil_l, replace_hyphen_cons).
    rewrite <- (str_app_nil_r h5) at 1.
    rewrite replace_hyphen_hex by assumption. cbn [str_replace_from].
    rewrite str_app_nil_r. reflexivity.
  - apply hex_or_hyphen_groups; auto.
    intros c Hc. destruct (is_hex_other c Hc) as (_ & _ & H).
    cbn [str_mem] in H. apply orb_false_elim in H as [_ H].
    apply negb_true_iff. exact H.
Qed.

Lemma canonical_accepted (u : string) :
  is_canonical_uuid u = true -> check_valid_uuid (JStr u) = Ret true.
Proof.
  intros (h1 & h2 & h3 & h4 & h5 & -> & Hh & Hlen)%is_canonical_uuid_groups.
  unfold check_valid_uuid, uuid_UUID.
  rewrite (uuid_hex_part_canonical _ _ _ _ _ Hh), Hlen. cbn [Nat.eqb negb].
  destruct (h1 ++ h2 ++ h3 ++ h4 ++ h5) as [|c h] eqn:E; [discriminate Hlen|].
  rewrite (int_base16_hex c h Hh). cbn [res_bind].
  pose proof (hex_value_bound _ Hh 0 ltac:(lia)) as B. rewrite Hlen in B.
  change (16 ^ Z.of_nat 32) with (2 ^ 128) in B.
  replace (0 <=? hex_value 0 (String c h)) with true by (symmetry; apply Z.leb_le; lia).
  replace (hex_value 0 (String c h) <? 2 ^ 128) with true by (symmetry; apply Z.ltb_lt; lia).
  reflexivity.
Qed.

(** C5 (amended): [check_valid_uuid] is true for every text in canonical
    form; it is true exactly when [uuid.UUID] accepts the text, and that
    constructor also takes other spellings (no hyphens, braces around,
    a [urn:uuid:] prefix), so a true answer does not mean the text was
    canonical. *)
Theorem check_valid_uuid_canonical (u : string) :
  (is_canonical_uuid u = true -> check_valid_uuid (JStr u) = Ret true) /\
  (check_valid_uuid (JStr u) = Ret true <->
   exists int, uuid_UUID (JStr u) = Ret int /\ 0 <= int < 2 ^ 128 /\
               String.length (uuid_hex_part u) = 32%nat) /\
  (check_valid_uuid (JStr u) = Ret false <->
   exists e, uuid_UUID (JStr u) = Raise e).
Proof.
  split; [|split].
  - apply canonical_accepted.
  - unfold check_valid_uuid, uuid_UUID. split.
    + destruct (negb (String.length (uuid_hex_part u) =? 32)%nat) eqn:L;
        [discriminate|].
      apply negb_false_iff, Nat.eqb_eq in L.
      destruct (int_base16 (uuid_hex_part u)) as [v|e]; [|discriminate].
      cbn [res_bind].
      destruct ((0 <=? v) && (v <? 2 ^ 128)) eqn:R; [|discriminate].
      apply andb_prop in R as [R1%Z.leb_le R2%Z.ltb_lt].
      intros _. exists v. auto.
    + intros (v & -> & _). reflexivity.
  - unfold check_valid_uuid. split.
    + destruct (uuid_UUID (JStr u)) as [v|e]; [discriminate | eauto].
    + intros (e & ->). reflexivity.
Qed.

Lemma check_valid_uuid_canonical_witness :
  is_canonical_uuid "12345678-1234-5678-1234-567812345678" = true /\
  check_valid_uuid (JStr "12345678-1234-5678-1234-567812345678") = Ret true.
Proof.
  split; [reflexivity|].
  apply (proj1 (check_valid_uuid_canonical "12345678-1234-5678-1234-567812345678")).
  reflexivity.
Defined.

(** C5 as stated fails: a text that is not in canonical form is accepted. *)
Lemma check_valid_uuid_not_canonical :
  is_canonical_uuid "12345678123456781234567812345678" = false /\
  check_valid_uuid (JStr "12345678123456781234567812345678") = Ret true /\
  is_canonical_uuid "urn:uuid:{12345678-1234-5678-1234-567812345678}" = false /\
  check_valid_uuid (JStr "urn:uuid:{12345678-1234-5678-1234-567812345678}") = Ret true.
Proof. vm_compute. repeat split; reflexivity. Qed.

(** ** What an accepted text can contain *)

Lemma skip_spaces_forall (s : string) :
  str_forall int_char (skip_spaces s) = true -> str_forall int_char s = true.
Proof.
  induction s as [|c s IH]; [auto|].
  cbn [skip_spaces]. destruct (int_space c) eqn:E; [|auto].
  intros H. cbn [str_forall]. rewrite (IH H).
  unfold int_char. rewrite E, orb_true_r. reflexivity.
Qed.

Lemma skip_spaces_empty (s : string) :
  skip_spaces s = "" -> str_forall int_char s = true.
Proof.
  intros H. apply skip_spaces_forall. rewrite H. reflexivity.
Qed.

Lemma skip_sign_forall (s s' : string) (sign : Z) :
  skip_sign s = (sign, s') ->
  str_forall int_char s' = true -> str_forall int_char s = true.
Proof.
  destruct s as [|c s]; [intros [= _ <-]; auto|].
  ascii_cases c; intros [= _ <-]; auto.
Qed.

Lemma skip_prefix_forall (s : string) :
  str_forall int_char (skip_prefix s) = true -> str_forall int_char s = true.
Proof.
  destruct s as [|c [|x s]]; [exact id | ascii_cases c; exact id |].
  ascii_cases c; try exact id.
  cbn [skip_prefix]. destruct (Ascii.eqb x "x" || Ascii.eqb x "X") eqn:Ex; [|exact id].
  assert (Hx : int_char x = true).
  { apply orb_prop in Ex as [->%Ascii.eqb_eq | ->%Ascii.eqb_eq]; reflexivity. }
  destruct s as [|y s].
  - intros _. cbn [str_forall]. rewrite Hx. reflexivity.
  - ascii_cases y; intros H; cbn [str_forall] in *; rewrite Hx; exact H.
Qed.

Lemma scan_forall (s : string) :
  forall prev acc v b rest,
    long_from_binary_base prev acc s = Some (v, b, rest) ->
    str_forall int_char rest = true -> str_forall int_char s = true.
Proof.
  induction s as [|c s IH]; intros prev acc v b rest H Hrest; [reflexivity|].
  cbn [long_from_binary_base] in H. cbn [str_forall].
  destruct (Ascii.eqb c "_") eqn:Eu.
  - apply Ascii.eqb_eq in Eu. subst c.
    assert (R : long_from_binary_base (Some "_"%char) acc s = Some (v, b, rest)).
    { destruct prev as [p|]; [ascii_cases p|]; first [exact H | discriminate H]. }
    rewrite (IH _ _ _ _ _ R Hrest). reflexivity.
  - destruct (hex_digit_value c) as [d|] eqn:Ed.
    + rewrite (IH _ _ _ _ _ H Hrest).
      unfold int_char, is_hex. rewrite Ed. reflexivity.
    + assert (R : rest = String c s).
      { destruct prev as [p|]; [ascii_cases p|];
          first [discriminate H | injection H as _ _ <-; reflexivity]. }
      rewrite R in Hrest. exact Hrest.
Qed.

Lemma not_underscore_ret {A : Type} (s : string) (x : res A) (v : A) :
  match s with
  | String "_" _ => Raise ValueError
  | _ => x
  end = Ret v -> x = Ret v.
Proof.
  destruct s as [|c s]; [auto|]. ascii_cases c; auto; discriminate.
Qed.

Lemma int_base16_chars (text : string) (v : Z) :
  int_base16 text = Ret v -> str_forall int_char text = true.
Proof.
  unfold int_base16. destruct (skip_sign (skip_spaces text)) as [sign s1] eqn:E1.
  intros H%not_underscore_ret.
  destruct (long_from_binary_base None 0 (skip_prefix s1))
    as [[[v' [|]] rest]|] eqn:E2; try discriminate H.
  destruct (skip_spaces rest) eqn:E3; [|discriminate H].
  apply skip_spaces_forall, (skip_sign_forall _ _ _ E1), skip_prefix_forall.
  apply (scan_forall _ _ _ _ _ _ E2), skip_spaces_empty, E3.
Qed.

Lemma uuid_char_false (c : ascii) :
  uuid_char c = false ->
  int_char c = false /\ str_mem c "urn:" = false /\ str_mem c "uuid:" = false /\
  str_mem c "{}" = false /\ str_mem c "-" = false.
Proof.
  ascii_cases c; vm_compute; intros H; try discriminate H; auto.
Qed.

(** Every character of a text [check_valid_uuid] accepts is one of the few
    the parser lets through. *)
Lemma check_valid_uuid_chars (s : string) :
  check_valid_uuid (JStr s) = Ret true -> str_forall uuid_char s = true.
Proof.
  intros Hv.
  assert (G : forall c, str_mem c s = true -> uuid_char c = true).
  { intros c Hc. destruct (uuid_char c) eqn:E; [reflexivity|].
    destruct (uuid_char_false c E) as (Hint & H1 & H2 & H3 & H4).
    unfold check_valid_uuid, uuid_UUID in Hv.
    destruct (negb (String.length (uuid_hex_part s) =? 32)%nat); [discriminate|].
    destruct (int_base16 (uuid_hex_part s)) as [v|] eqn:Ev; [|discriminate].
    apply int_base16_chars in Ev.
    assert (M : str_mem c (uuid_hex_part s) = true).
    { unfold uuid_hex_part.
      apply str_replace_keeps; [exact H4|]. apply str_strip_keeps; [exact H3|].
      apply str_replace_keeps; [exact H2|]. apply str_replace_keeps; [exact H1|].
      exact Hc. }
    rewrite (str_forall_mem _ _ _ Ev M) in Hint. discriminate. }
  clear Hv. induction s as [|x s IH]; [reflexivity|].
  cbn [str_forall]. rewrite (G x), IH; [reflexivity| |].
  - intros c Hc. apply G. cbn [str_mem]. rewrite Hc, orb_true_r. reflexivity.
  - cbn [str_mem]. rewrite Ascii.eqb_refl. reflexivity.
Qed.

(** ** Paths under [DATA_PATH] *)

Lemma os_path_join_relative (a name : string) :
  str_mem "/" name = false ->
  os_path_join a name
  = match str_last a with
    | None | Some "/"%char => a ++ name
    | Some _ => a ++ "/" ++ name
    end.
Proof.
  destruct name as [|c name]; [reflexivity|].
  ascii_cases c; intros H; first [discriminate H | reflexivity].
Qed.

Lemma os_path_join_inj (a name1 name2 : string) :
  str_mem "/" name1 = false -> str_mem "/" name2 = false ->
  os_path_join a name1 = os_path_join a name2 -> name1 = name2.
Proof.
  intros H1 H2. rewrite !os_path_join_relative by assumption.
  destruct (str_last a) as [c|]; [ascii_cases c|]; intros H;
    repeat apply str_app_inv_head in H; exact H.
Qed.

Lemma uuid_char_forall_no (c : ascii) (s : string) :
  uuid_char c = false -> str_forall uuid_char s = true -> str_mem c s = false.
Proof.
  intros Hc Hs. destruct (str_mem c s) eqn:E; [|reflexivity].
  rewrite (str_forall_mem _ _ _ Hs E) in Hc. discriminate.
Qed.

(** The artifact of a valid id is never stored where the result record of a
    valid id is. *)
Lemma artifact_path_apart (DATA_PATH id id' : string) :
  check_valid_uuid (JStr id) = Ret true ->
  check_valid_uuid (JStr id') = Ret true ->
  artifact_path DATA_PATH id <> result_path DATA_PATH id'.
Proof.
  intros Hv%check_valid_uuid_chars Hv'%check_valid_uuid_chars.
  unfold artifact_path, result_path. intros E.
  apply os_path_join_inj in E.
  - assert (M : str_mem "." id' = true).
    { rewrite <- E, str_mem_app. apply orb_true_r. }
    rewrite (uuid_char_forall_no "." id') in M; [discriminate | reflexivity | exact Hv'].
  - rewrite str_mem_app, (uuid_char_forall_no "/" id); [reflexivity | reflexivity | exact Hv].
  - apply uuid_char_forall_no; [reflexivity | exact Hv'].
Qed.

(** ** Generated ids *)

Lemma is_hex_hex_digit_char (d : Z) : is_hex (hex_digit_char d) = true.
Proof.
  destruct d as [|p|p]; try reflexivity.
  do 4 (destruct p as [p|p|]; try reflexivity).
Qed.

Lemma uuid_str_canonical (int : Z) : is_canonical_uuid (uuid_str int) = true.
Proof.
  unfold uuid_str. cbn [format_hex].
  repeat match goal with
         | |- context [hex_digit_char ?d] =>
             let c := fresh "c" in
             let H := fresh "H" in
             pose proof (is_hex_hex_digit_char d) as H;
             set (c := hex_digit_char d) in *; clearbody c
         end.
  unfold is_canonical_uuid. cbn [substring].
  rewrite !str_app_cons, !str_app_nil_l.
  repeat (cbn [take_hex];
          match goal with
          | H : is_hex ?c = true |- context [is_hex ?c] => rewrite H
          end).
  reflexivity.
Qed.

(** The id [job_post] draws passes [check_valid_uuid]. *)
Lemma uuid4_valid (rnd : Z) :
  check_valid_uuid (JStr (uuid_str (uuid4 rnd))) = Ret true.
Proof.
  apply canonical_accepted, uuid_str_canonical.
Qed.

(** ** Results and artifacts *)

Lemma result_post_eq (DATA_PATH job_id : string) (data : json) (w : world) :
  check_valid_uuid (JStr job_id) = Ret true ->
  path_ok (result_path DATA_PATH job_id) = true ->
  let path := result_path DATA_PATH job_id in
  result_post DATA_PATH job_id data w
  = (put_file path (json_dumps data) (add_trace [EvWrite path (json_dumps data)] w),
     Ret (Text "OK", 200)).
Proof.
  intros Hv Hok path. unfold result_post, bind at 1, lift. rewrite Hv. cbn [negb].
  unfold bind. fold (result_path DATA_PATH job_id).
  rewrite file_write_eq by exact Hok. reflexivity.
Qed.

Lemma result_post_refused (DATA_PATH job_id : string) (data : json) (w : world) :
  check_valid_uuid (JStr job_id) = Ret true ->
  path_ok (result_path DATA_PATH job_id) = false ->
  let path := result_path DATA_PATH job_id in
  result_post DATA_PATH job_id data w
  = (add_trace [EvWrite path (json_dumps data)] w, Raise OSError).
Proof.
  intros Hv Hok path. unfold result_post, bind at 1, lift. rewrite Hv. cbn [negb].
  unfold bind. fold (result_path DATA_PATH job_id).
  rewrite file_write_refused by exact Hok. reflexivity.
Qed.

Lemma result_get_eq (DATA_PATH job_id : string) (w : world) :
  check_valid_uuid (JStr job_id) = Ret true ->
  let path := result_path DATA_PATH job_id in
  result_get DATA_PATH job_id w
  = match files w !! path with
    | Some data => (add_trace [EvExists path; EvRead path] w, Ret (Text data, 200))
    | None => (add_trace [EvExists path] w, Ret (Text "", 204))
    end.
Proof.
  intros Hv path. unfold result_get, bind, lift. rewrite Hv. cbn [negb].
  fold (result_path DATA_PATH job_id). fold path. rewrite os_path_exists_eq.
  destruct (files w !! path) as [data|] eqn:E.
  - rewrite bool_decide_eq_true_2 by eauto. cbn [negb].
    rewrite (file_read_eq path data) by exact E.
    unfold add_trace. cbn [files lists expiry trace]. rewrite <- app_assoc. reflexivity.
  - rewrite bool_decide_eq_false_2 by (intros [? ?]; congruence). reflexivity.
Qed.

Lemma artifacts_post_eq (DATA_PATH job_id content : string) (w : world) :
  check_valid_uuid (JStr job_id) = Ret true ->
  path_ok (artifact_path DATA_PATH job_id) = true ->
  let path := artifact_path DATA_PATH job_id in
  artifacts_post DATA_PATH job_id (Some content) w
  = (put_file path content (add_trace [EvWrite path content] w), Ret (Text "OK", 200)).
Proof.
  intros Hv Hok path. unfold artifacts_post, bind at 1, lift. rewrite Hv. cbn [negb].
  unfold bind. fold (artifact_path DATA_PATH job_id).
  rewrite file_write_eq by exact Hok. reflexivity.
Qed.

Lemma artifacts_post_refused (DATA_PATH job_id content : string) (w : world) :
  check_valid_uuid (JStr job_id) = Ret true ->
  path_ok (artifact_path DATA_PATH job_id) = false ->
  let path := artifact_path DATA_PATH job_id in
  artifacts_post DATA_PATH job_id (Some content) w
  = (add_trace [EvWrite path content] w, Raise OSError).
Proof.
  intros Hv Hok path. unfold artifacts_post, bind at 1, lift. rewrite Hv. cbn [negb].
  unfold bind. fold (artifact_path DATA_PATH job_id).
  rewrite file_write_refused by exact Hok. reflexivity.
Qed.

Lemma artifacts_get_eq (DATA_PATH job_id : string) (w : world) :
  check_valid_uuid (JStr job_id) = Ret true ->
  let path := artifact_path DATA_PATH job_id in
  artifacts_get DATA_PATH job_id w
  = match files w !! path with
    | Some content =>
        (add_trace [EvExists path; EvRead path] w, Ret (SendFile content, 200))
    | None => (add_trace [EvExists path] w, Ret (Text "", 204))
    end.
Proof.
  intros Hv path. unfold artifacts_get, bind, lift. rewrite Hv. cbn [negb].
  fold (artifact_path DATA_PATH job_id). fold path. rewrite os_path_exists_eq.
  destruct (files w !! path) as [data|] eqn:E.
  - rewrite bool_decide_eq_true_2 by eauto. cbn [negb].
    rewrite (file_read_eq path data) by exact E.
    unfold add_trace. cbn [files lists expiry trace]. rewrite <- app_assoc. reflexivity.
  - rewrite bool_decide_eq_false_2 by (intros [? ?]; congruence). reflexivity.
Qed.

(** C4 (amended): for a valid id, when the file system takes the result
    path, a result write followed by a result read returns the payload
    written, as the text [json.dumps] gives for it; when it takes the
    artifact path, an artifact write followed by an artifact read returns
    the bytes written; and the artifact is stored under a path made from
    the id that is the result path of no valid id. *)
Theorem store_round_trip (DATA_PATH job_id : string) (w : world) :
  check_valid_uuid (JStr job_id) = Ret true ->
  (forall R,
      path_ok (result_path DATA_PATH job_id) = true ->
      let w1 := fst (result_post DATA_PATH job_id R w) in
      snd (result_post DATA_PATH job_id R w) = Ret (Text "OK", 200) /\
      snd (result_get DATA_PATH job_id w1) = Ret (Text (json_dumps R), 200)) /\
  (forall B,
      path_ok (artifact_path DATA_PATH job_id) = true ->
      let w1 := fst (artifacts_post DATA_PATH job_id (Some B) w) in
      snd (artifacts_post DATA_PATH job_id (Some B) w) = Ret (Text "OK", 200) /\
      files w1 !! artifact_path DATA_PATH job_id = Some B /\
      snd (artifacts_get DATA_PATH job_id w1) = Ret (SendFile B, 200)) /\
  (forall id',
      check_valid_uuid (JStr id') = Ret true ->
      artifact_path DATA_PATH job_id <> result_path DATA_PATH id').
Proof.
  intros Hv. split; [|split].
  - intros R Hok w1. subst w1. rewrite (result_post_eq _ _ _ _ Hv Hok). cbn [fst snd].
    split; [reflexivity|]. rewrite (result_get_eq _ _ _ Hv).
    rewrite files_after_submit. reflexivity.
  - intros B Hok w1. subst w1. rewrite (artifacts_post_eq _ _ _ _ Hv Hok). cbn [fst snd].
    split; [reflexivity|]. split; [apply files_after_submit|].
    rewrite (artifacts_get_eq _ _ _ Hv), files_after_submit. reflexivity.
  - intros id' Hv'. apply artifact_path_apart; assumption.
Qed.

Lemma store_round_trip_witness :
  let id := "12345678-1234-5678-1234-567812345678" in
  let R := JDict [("job_state", JStr "complete"); ("exit", JInt 0)] in
  snd (result_get "/srv/data" id (fst (result_post "/srv/data" id R empty_world)))
  = Ret (Text (json_dumps R), 200) /\
  snd (artifacts_get "/srv/data" id
         (fst (artifacts_post "/srv/data" id (Some "tarball") empty_world)))
  = Ret (SendFile "tarball", 200).
Proof.
  intros id R.
  assert (Hv : check_valid_uuid (JStr id) = Ret true) by (vm_compute; reflexivity).
  destruct (store_round_trip "/srv/data" id empty_world Hv) as (H1 & H2 & _).
  split; [exact (proj2 (H1 R eq_refl)) | exact (proj2 (proj2 (H2 "tarball" eq_refl)))].
Defined.

(** C4 as stated fails for a valid id too long for a file name: the write
    raises, nothing is stored, and the read answers 204. *)
Lemma long_id_no_round_trip :
  let out := result_post "/srv/data" long_valid_id (JStr "done") empty_world in
  let up := artifacts_post "/srv/data" long_valid_id (Some "tarball") empty_world in
  check_valid_uuid (JStr long_valid_id) = Ret true /\
  snd out = Raise OSError /\
  snd (result_get "/srv/data" long_valid_id (fst out)) = Ret (Text "", 204) /\
  snd up = Raise OSError /\
  snd (artifacts_get "/srv/data" long_valid_id (fst up)) = Ret (Text "", 204).
Proof. vm_compute. repeat split; reflexivity. Qed.

(** ** No handler removes a file *)

Lemma files_grow_refl (w : world) : files_grow w w.
Proof. intros p H. exact H. Qed.

Lemma files_grow_trans (w1 w2 w3 : world) :
  files_grow w1 w2 -> files_grow w2 w3 -> files_grow w1 w3.
Proof. intros H12 H23 p H. auto. Qed.

Lemma keeps_ret {A} (a : A) : keeps_files (ret a).
Proof. intros w. apply files_grow_refl. Qed.

Lemma keeps_raise {A} (e : exn) : keeps_files (@raise A e).
Proof. intros w. apply files_grow_refl. Qed.

Lemma keeps_lift {A} (r : res A) : keeps_files (lift r).
Proof. intros w. apply files_grow_refl. Qed.

Lemma keeps_get_world : keeps_files get_world.
Proof. intros w. apply files_grow_refl. Qed.

Lemma keeps_log (e : event) : keeps_files (log e).
Proof. intros w p H. exact H. Qed.

Lemma keeps_set_lists l : keeps_files (set_lists l).
Proof. intros w p H. exact H. Qed.

Lemma keeps_set_expiry x : keeps_files (set_expiry x).
Proof. intros w p H. exact H. Qed.

Lemma keeps_bind {A B} (c : M A) (k : A -> M B) :
  keeps_files c -> (forall a, keeps_files (k a)) -> keeps_files (bind c k).
Proof.
  intros Hc Hk w. unfold bind. specialize (Hc w).
  destruct (c w) as [w' [a|e]]; cbn [fst] in *; [|exact Hc].
  eapply files_grow_trans; [exact Hc | apply Hk].
Qed.

Lemma keeps_try_except {A} (c : M A) (h : exn -> M A) :
  keeps_files c -> (forall e, keeps_files (h e)) -> keeps_files (try_except c h).
Proof.
  intros Hc Hh w. unfold try_except. specialize (Hc w).
  destruct (c w) as [w' [a|e]]; cbn [fst] in *; [exact Hc|].
  eapply files_grow_trans; [exact Hc | apply Hh].
Qed.

Lemma keeps_file_write (path content : string) :
  keeps_files (file_write path content).
Proof.
  intros w p H. destruct (path_ok path) eqn:Hok.
  - rewrite file_write_eq by exact Hok. cbn [fst put_file add_trace files].
    destruct (decide (path = p)) as [->|Hne].
    + rewrite lookup_insert_eq. eauto.
    + rewrite lookup_insert_ne by exact Hne. exact H.
  - rewrite file_write_refused by exact Hok. exact H.
Qed.

Create HintDb keeps discriminated.
#[local] Hint Resolve keeps_ret keeps_raise keeps_lift keeps_get_world keeps_log
  keeps_set_lists keeps_set_expiry keeps_file_write : keeps.

Ltac keeps_step :=
  match goal with
  | |- keeps_files (bind _ _) => apply keeps_bind
  | |- keeps_files (try_except _ _) => apply keeps_try_except
  | |- keeps_files (if ?b then _ else _) => destruct b
  | |- keeps_files (match ?x with _ => _ end) => destruct x
  | |- keeps_files (let _ := _ in _) => cbv zeta
  | |- forall _, _ => intro
  | |- keeps_files _ => solve [auto with keeps]
  end.

Lemma keeps_store_list key l : keeps_files (store_list key l).
Proof. unfold store_list. repeat keeps_step. Qed.

Lemma keeps_os_path_exists path : keeps_files (os_path_exists path).
Proof. unfold os_path_exists. repeat keeps_step. Qed.

Lemma keeps_file_read path : keeps_files (file_read path).
Proof.
  intros w. unfold file_read, bind, log, get_world. cbn [files].
  destruct (files w !! path); intros p H; exact H.
Qed.

#[local] Hint Resolve keeps_store_list keeps_os_path_exists keeps_file_read : keeps.

Lemma keeps_redis_lpush key value : keeps_files (redis_lpush key value).
Proof. unfold redis_lpush. repeat keeps_step. Qed.

Lemma keeps_redis_rpush key value : keeps_files (redis_rpush key value).
Proof. unfold redis_rpush. repeat keeps_step. Qed.

Lemma keeps_redis_expire key seconds : keeps_files (redis_expire key seconds).
Proof. unfold redis_expire. repeat keeps_step. Qed.

Lemma keeps_redis_brpop keys timeout : keeps_files (redis_brpop keys timeout).
Proof. unfold redis_brpop. repeat keeps_step. Qed.

Lemma keeps_redis_lrange_delete key : keeps_files (redis_lrange_delete key).
Proof. unfold redis_lrange_delete. repeat keeps_step. Qed.

#[local] Hint Resolve keeps_redis_lpush keeps_redis_rpush keeps_redis_expire
  keeps_redis_brpop keeps_redis_lrange_delete : keeps.

Lemma keeps_handle (DATA_PATH : string) (r : request) :
  keeps_files (handle DATA_PATH r).
Proof.
  destruct r; cbn [handle];
    unfold job_post, job_post_enqueue, submit_job, job_get, get_job,
      result_post, result_get, artifacts_post, artifacts_get,
      output_get, output_post;
    repeat keeps_step.
Qed.

Lemma run_files_grow (DATA_PATH : string) (rs : list request) (w : world) :
  files_grow w (run DATA_PATH rs w).
Proof.
  revert w. induction rs as [|r rs IH]; intros w; cbn [run].
  - apply files_grow_refl.
  - eapply files_grow_trans; [apply keeps_handle | apply IH].
Qed.

(** ** The result record of a submitted job *)

Lemma job_post_enqueue_inv (DATA_PATH : string) (job_queue job_id data : json)
    (w w1 : world) (r : response) :
  job_post_enqueue DATA_PATH job_queue job_id data w = (w1, Ret r) ->
  exists id,
    job_id = JStr id /\
    r = (Jsonify [("job_id", job_id)], 200) /\
    files w1 !! result_path DATA_PATH id
    = Some (state_record (next_state DATA_PATH id w)).
Proof.
  unfold job_post_enqueue, submit_job, bind, lift.
  destruct (redis_encode job_queue) as [key|e]; [|discriminate].
  rewrite redis_lpush_eq.
  destruct job_id as [ | | | | id | | ]; cbn [as_str]; try discriminate.
  rewrite os_path_exists_eq.
  destruct (path_ok (os_path_join DATA_PATH id)) eqn:Hok;
    [rewrite file_write_eq by exact Hok
    | rewrite file_write_refused by exact Hok; discriminate].
  unfold ret. intros H. exists id. split; [reflexivity|].
  pose proof (f_equal snd H) as Hr. pose proof (f_equal fst H) as Hw.
  cbn [fst snd] in Hr, Hw. injection Hr as <-. split; [reflexivity|].
  rewrite <- Hw.
  exact (files_after_submit (result_path DATA_PATH id)
           (state_record (next_state DATA_PATH id w)) _ _).
Qed.

Lemma job_post_inv (DATA_PATH : string) (data job_id : json) (rnd : Z) (w w1 : world) :
  job_post DATA_PATH data rnd w = (w1, Ret (Jsonify [("job_id", job_id)], 200)) ->
  exists id,
    job_id = JStr id /\
    check_valid_uuid (JStr id) = Ret true /\
    files w1 !! result_path DATA_PATH id
    = Some (state_record (next_state DATA_PATH id w)).
Proof.
  unfold job_post. unfold bind at 1. unfold try_except, lift, py_get.
  destruct data as [ | | | | | | d]; cbn [negb truthy]; try (unfold ret; discriminate).
  destruct (truthy (default JNull (dict_lookup "job_queue" d))); cbn [negb];
    [|unfold ret; discriminate].
  unfold bind at 1.
  destruct (truthy (default JNull (dict_lookup "job_id" d))) eqn:Et; cbn [negb].
  - unfold bind at 1.
    destruct (check_valid_uuid (default JNull (dict_lookup "job_id" d))) as [[|]|] eqn:Hv;
      cbn [negb]; try (unfold ret; discriminate).
    intros H. apply job_post_enqueue_inv in H as (id & Hid & Hr & Hf).
    injection Hr as ->. exists id. rewrite Hid in Hv. auto.
  - unfold bind at 1. cbn [py_setitem].
    intros H. apply job_post_enqueue_inv in H as (id & [= <-] & Hr & Hf).
    injection Hr as ->. exists (uuid_str (uuid4 rnd)). auto using uuid4_valid.
Qed.

Lemma next_state_cases (DATA_PATH job_id : string) (w : world) :
  next_state DATA_PATH job_id w = "waiting" \/
  next_state DATA_PATH job_id w = "resubmitted".
Proof. unfold next_state. case_bool_decide; auto. Qed.

(** C2: once a submission has returned a job id, a result record exists
    under the id's path, holding ['waiting'] or ['resubmitted']; it still
    exists after any further requests, so a result read for the id is
    answered 200 with the record's content and never 204 (absent). *)
Theorem result_record_persists (DATA_PATH : string) (data job_id : json)
    (rnd : Z) (w w1 : world) :
  job_post DATA_PATH data rnd w = (w1, Ret (Jsonify [("job_id", job_id)], 200)) ->
  exists id,
    job_id = JStr id /\
    (files w1 !! result_path DATA_PATH id = Some (state_record "waiting") \/
     files w1 !! result_path DATA_PATH id = Some (state_record "resubmitted")) /\
    forall rs,
      let w2 := run DATA_PATH rs w1 in
      exists content,
        files w2 !! result_path DATA_PATH id = Some content /\
        snd (result_get DATA_PATH id w2) = Ret (Text content, 200).
Proof.
  intros (id & -> & Hv & Hf)%job_post_inv. exists id.
  split; [reflexivity|]. split.
  - destruct (next_state_cases DATA_PATH id w) as [E | E]; rewrite E in Hf; auto.
  - intros rs w2. subst w2.
    destruct (run_files_grow DATA_PATH rs w1 (result_path DATA_PATH id))
      as [content Hc]; [eauto|].
    exists content. split; [exact Hc|].
    rewrite (result_get_eq _ _ _ Hv), Hc. reflexivity.
Qed.

Lemma result_record_persists_witness :
  let data := JDict [("job_queue", JStr "q")] in
  let id := uuid_str (uuid4 5) in
  let w1 := fst (job_post "/srv/data" data 5 empty_world) in
  let rs := [JobGet ["q"]; OutputPost id "line"; OutputGet id;
             ArtifactsPost id (Some "blob")] in
  exists content,
    snd (result_get "/srv/data" id (run "/srv/data" rs w1)) = Ret (Text content, 200).
Proof.
  intros data id w1 rs.
  assert (H : job_post "/srv/data" data 5 empty_world
              = (w1, Ret (Jsonify [("job_id", JStr id)], 200))).
  { subst w1.
    rewrite (job_post_accepted "/srv/data" [("job_queue", JStr "q")] 5 "q" id
               (JDict [("job_queue", JStr "q"); ("job_id", JStr id)])).
    - rewrite job_post_enqueue_eq by reflexivity. reflexivity.
    - split; [reflexivity|]. split; [discriminate|]. left. repeat split. }
  destruct (result_record_persists "/srv/data" data (JStr id) 5 empty_world w1 H)
    as (id' & [= <-] & _ & Hrs).
  destruct (Hrs rs) as (content & _ & Hget). exists content. exact Hget.
Defined.

(** * Further properties of the handlers *)

(** ** Valid ids as file names and keys *)

Lemma check_valid_uuid_cases (job_id : json) :
  check_valid_uuid job_id = Ret true \/ check_valid_uuid job_id = Ret false.
Proof.
  unfold check_valid_uuid. destruct (uuid_UUID job_id); [left | right]; reflexivity.
Qed.

Lemma valid_no_slash (id : string) :
  check_valid_uuid (JStr id) = Ret true -> str_mem "/" id = false.
Proof.
  intros Hv%check_valid_uuid_chars. apply uuid_char_forall_no; [reflexivity | exact Hv].
Qed.

Lemma str_app_inv_tail (a b s : string) : a ++ s = b ++ s -> a = b.
Proof.
  revert b. induction a as [|x a IH]; intros [|y b] H.
  - reflexivity.
  - apply (f_equal String.length) in H.
    rewrite str_app_nil_l, str_app_length in H. cbn [String.length] in H. lia.
  - apply (f_equal String.length) in H.
    rewrite str_app_nil_l, str_app_length in H. cbn [String.length] in H. lia.
  - rewrite !str_app_cons in H. injection H as -> H. rewrite (IH _ H). reflexivity.
Qed.

Lemma str_app_assoc (a b c : string) : (a ++ b) ++ c = a ++ b ++ c.
Proof.
  induction a as [|x a IH]; [reflexivity|].
  rewrite !str_app_cons, IH. reflexivity.
Qed.

Lemma str_last_app_char (p : string) (c : ascii) :
  str_last (p ++ String c "") = Some c.
Proof.
  induction p as [|x p IH]; [reflexivity|].
  rewrite str_app_cons. cbn [str_last]. rewrite IH.
  destruct p; reflexivity.
Qed.

Lemma str_last_none (s : string) : str_last s = None -> s = "".
Proof.
  induction s as [|x s IH]; [reflexivity|].
  cbn [str_last]. destruct s as [|y s]; [discriminate|].
  intros H. specialize (IH H). discriminate.
Qed.

Lemma str_last_not_slash (s : string) (c : ascii) :
  str_last s = Some c -> Ascii.eqb c "/" = false ->
  s <> "" /\ forall p, s <> p ++ "/".
Proof.
  intros H Hc. split.
  - intros ->. discriminate.
  - intros p ->. rewrite str_last_app_char in H. injection H as <-. discriminate.
Qed.

(** X1: an id that passes [check_valid_uuid] has no slash, dot or NUL in
    it, so the result file and the artifact file are entries of the
    [DATA_PATH] directory itself: the path is the file name alone when
    [DATA_PATH] is empty, [DATA_PATH] followed by the file name when
    [DATA_PATH] ends with a slash, and [DATA_PATH], a slash and the file
    name otherwise. *)
Theorem valid_id_path_safe (DATA_PATH job_id : string) :
  check_valid_uuid (JStr job_id) = Ret true ->
  str_mem "/" job_id = false /\
  str_mem "." job_id = false /\
  str_mem "000" job_id = false /\
  (DATA_PATH = "" ->
   os_path_join DATA_PATH job_id = job_id /\
   os_path_join DATA_PATH (job_id ++ ".artifact") = job_id ++ ".artifact") /\
  (forall p, DATA_PATH = p ++ "/" ->
   os_path_join DATA_PATH job_id = DATA_PATH ++ job_id /\
   os_path_join DATA_PATH (job_id ++ ".artifact") = DATA_PATH ++ job_id ++ ".artifact") /\
  (DATA_PATH <> "" -> (forall p, DATA_PATH <> p ++ "/") ->
   os_path_join DATA_PATH job_id = DATA_PATH ++ "/" ++ job_id /\
   os_path_join DATA_PATH (job_id ++ ".artifact")
   = DATA_PATH ++ "/" ++ job_id ++ ".artifact").
Proof.
  intros Hv. pose proof (check_valid_uuid_chars _ Hv) as Hc.
  assert (Hs : str_mem "/" job_id = false) by (apply valid_no_slash, Hv).
  split; [exact Hs|].
  split; [apply uuid_char_forall_no; [reflexivity | exact Hc]|].
  split; [apply uuid_char_forall_no; [reflexivity | exact Hc]|].
  assert (Hs' : str_mem "/" (job_id ++ ".artifact") = false).
  { rewrite str_mem_app, Hs. reflexivity. }
  rewrite !os_path_join_relative by assumption.
  split; [|split].
  - intros ->. split; reflexivity.
  - intros p ->. rewrite str_last_app_char. split; reflexivity.
  - intros Hne Hns. destruct (str_last DATA_PATH) as [c|] eqn:El.
    + destruct (Ascii.eqb c "/") eqn:E.
      * exfalso. apply Ascii.eqb_eq in E. subst c.
        clear - El Hns. revert Hns El.
        induction DATA_PATH as [|x s IH]; [discriminate|].
        intros Hns El. destruct s as [|y s].
        -- cbn in El. injection El as ->. exact (Hns "" eq_refl).
        -- apply IH; [|exact El].
           intros p Hp. apply (Hns (String x p)). rewrite str_app_cons, <- Hp. reflexivity.
      * revert E. ascii_cases c; intros E; first [discriminate E | split; reflexivity].
    + apply str_last_none in El. contradiction.
Qed.

Lemma valid_id_path_safe_witness :
  str_mem "/" "12345678-1234-5678-1234-567812345678" = false /\
  os_path_join "/srv/data" "12345678-1234-5678-1234-567812345678"
  = "/srv/data" ++ "/" ++ "12345678-1234-5678-1234-567812345678" /\
  os_path_join "/srv/data/" "12345678-1234-5678-1234-567812345678"
  = "/srv/data/" ++ "12345678-1234-5678-1234-567812345678".
Proof.
  assert (Hv : check_valid_uuid (JStr "12345678-1234-5678-1234-567812345678") = Ret true)
    by (vm_compute; reflexivity).
  destruct (valid_id_path_safe "/srv/data" _ Hv) as (H1 & _ & _ & _ & _ & H2).
  destruct (valid_id_path_safe "/srv/data/" _ Hv) as (_ & _ & _ & _ & H3 & _).
  split; [exact H1|]. split.
  - apply H2; [discriminate|]. intros p Hp.
    apply (f_equal str_last) in Hp. rewrite str_last_app_char in Hp. discriminate Hp.
  - exact (proj1 (H3 "/srv/data" eq_refl)).
Defined.

Lemma result_path_inj (DATA_PATH id1 id2 : string) :
  check_valid_uuid (JStr id1) = Ret true ->
  check_valid_uuid (JStr id2) = Ret true ->
  result_path DATA_PATH id1 = result_path DATA_PATH id2 -> id1 = id2.
Proof.
  intros H1 H2. apply os_path_join_inj; apply valid_no_slash; assumption.
Qed.

Lemma artifact_path_inj (DATA_PATH id1 id2 : string) :
  check_valid_uuid (JStr id1) = Ret true ->
  check_valid_uuid (JStr id2) = Ret true ->
  artifact_path DATA_PATH id1 = artifact_path DATA_PATH id2 -> id1 = id2.
Proof.
  intros H1 H2 E. unfold artifact_path in E.
  apply os_path_join_inj in E.
  - apply str_app_inv_tail in E. exact E.
  - rewrite str_mem_app, (valid_no_slash _ H1). reflexivity.
  - rewrite str_mem_app, (valid_no_slash _ H2). reflexivity.
Qed.

(** X2: different valid ids never share a store key: their result files
    differ, their artifact files differ, and their output stream keys
    differ. *)
Theorem distinct_ids_distinct_keys (DATA_PATH id1 id2 : string) :
  check_valid_uuid (JStr id1) = Ret true ->
  check_valid_uuid (JStr id2) = Ret true ->
  id1 <> id2 ->
  os_path_join DATA_PATH id1 <> os_path_join DATA_PATH id2 /\
  os_path_join DATA_PATH (id1 ++ ".artifact")
  <> os_path_join DATA_PATH (id2 ++ ".artifact") /\
  "stream_" ++ id1 <> "stream_" ++ id2.
Proof.
  intros H1 H2 Hne. split; [|split]; intros E; apply Hne.
  - exact (result_path_inj _ _ _ H1 H2 E).
  - exact (artifact_path_inj _ _ _ H1 H2 E).
  - exact (str_app_inv_head _ _ _ E).
Qed.

Lemma distinct_ids_distinct_keys_witness :
  os_path_join "/srv/data" "12345678-1234-5678-1234-567812345678"
  <> os_path_join "/srv/data" "12345678123456781234567812345678".
Proof.
  apply (distinct_ids_distinct_keys "/srv/data"
           "12345678-1234-5678-1234-567812345678" "12345678123456781234567812345678");
    [vm_compute; reflexivity | vm_compute; reflexivity | discriminate].
Defined.

(** ** Reading *)

(** X3: a result read and an artifact read change nothing in the stores
    (files, lists and expiry are as before, only the trace grows), and
    reading again gives the same answer. *)
Theorem reads_change_nothing (DATA_PATH job_id : string) (w : world) :
  let w1 := fst (result_get DATA_PATH job_id w) in
  let w2 := fst (artifacts_get DATA_PATH job_id w) in
  (files w1 = files w /\ lists w1 = lists w /\ expiry w1 = expiry w) /\
  (files w2 = files w /\ lists w2 = lists w /\ expiry w2 = expiry w) /\
  snd (result_get DATA_PATH job_id w1) = snd (result_get DATA_PATH job_id w) /\
  snd (artifacts_get DATA_PATH job_id w2) = snd (artifacts_get DATA_PATH job_id w).
Proof.
  intros w1 w2. subst w1 w2.
  destruct (check_valid_uuid_cases (JStr job_id)) as [Hv | Hv].
  - rewrite !(result_get_eq _ _ _ Hv), !(artifacts_get_eq _ _ _ Hv).
    destruct (files w !! result_path DATA_PATH job_id) as [r|] eqn:Er;
      destruct (files w !! artifact_path DATA_PATH job_id) as [a|] eqn:Ea;
      cbn [fst snd add_trace files lists expiry]; rewrite ?Er, ?Ea; auto 10.
  - unfold result_get, artifacts_get, bind, lift. rewrite Hv. cbn. auto 10.
Qed.

(** X4: for a valid id nothing was stored under, every read is answered
    204 with an empty body: the result read when the result file is
    missing, the artifact read when the artifact file is missing, the
    output drain when the stream is empty. *)
Theorem never_written_is_204 (DATA_PATH job_id : string) (w : world) :
  check_valid_uuid (JStr job_id) = Ret true ->
  (files w !! os_path_join DATA_PATH job_id = None ->
   snd (result_get DATA_PATH job_id w) = Ret (Text "", 204)) /\
  (files w !! os_path_join DATA_PATH (job_id ++ ".artifact") = None ->
   snd (artifacts_get DATA_PATH job_id w) = Ret (Text "", 204)) /\
  (lists w !! ("stream_" ++ job_id) = None ->
   snd (output_get job_id w) = Ret (Text "", 204)).
Proof.
  intros Hv. split; [|split]; intros H.
  - rewrite (result_get_eq _ _ _ Hv). unfold result_path. rewrite H. reflexivity.
  - rewrite (artifacts_get_eq _ _ _ Hv). unfold artifact_path. rewrite H. reflexivity.
  - rewrite (output_get_eq _ _ Hv). unfold redis_list, stream_key. rewrite H. reflexivity.
Qed.

Lemma never_written_is_204_witness :
  snd (result_get "/srv/data" "12345678-1234-5678-1234-567812345678" empty_world)
  = Ret (Text "", 204) /\
  snd (output_get "12345678-1234-5678-1234-567812345678" empty_world)
  = Ret (Text "", 204).
Proof.
  assert (Hv : check_valid_uuid (JStr "12345678-1234-5678-1234-567812345678") = Ret true)
    by (vm_compute; reflexivity).
  destruct (never_written_is_204 "/srv/data" _ empty_world Hv) as (H1 & _ & H3).
  split; [apply H1 | apply H3]; reflexivity.
Defined.

(** ** Writing *)

Lemma result_get_after_write (DATA_PATH job_id content : string) (evs : list event)
    (w : world) :
  check_valid_uuid (JStr job_id) = Ret true ->
  snd (result_get DATA_PATH job_id
         (put_file (result_path DATA_PATH job_id) content (add_trace evs w)))
  = Ret (Text content, 200).
Proof.
  intros Hv. rewrite (result_get_eq _ _ _ Hv), files_after_submit. reflexivity.
Qed.

(** X5: writes overwrite: for a valid id whose result path the file
    system takes, after two result writes the read returns the second
    payload; when it takes the artifact path, after two uploads the read
    returns the second upload; nothing of the first is kept. *)
Theorem last_write_wins (DATA_PATH job_id : string) (w : world) :
  check_valid_uuid (JStr job_id) = Ret true ->
  (forall R1 R2,
      path_ok (os_path_join DATA_PATH job_id) = true ->
      let w1 := fst (result_post DATA_PATH job_id R1 w) in
      let w2 := fst (result_post DATA_PATH job_id R2 w1) in
      snd (result_get DATA_PATH job_id w2) = Ret (Text (json_dumps R2), 200)) /\
  (forall B1 B2,
      path_ok (os_path_join DATA_PATH (job_id ++ ".artifact")) = true ->
      let w1 := fst (artifacts_post DATA_PATH job_id (Some B1) w) in
      let w2 := fst (artifacts_post DATA_PATH job_id (Some B2) w1) in
      snd (artifacts_get DATA_PATH job_id w2) = Ret (SendFile B2, 200)).
Proof.
  intros Hv. split.
  - intros R1 R2 Hok w1 w2. subst w2 w1.
    rewrite !(result_post_eq _ _ _ _ Hv Hok). cbn [fst].
    apply result_get_after_write, Hv.
  - intros B1 B2 Hok w1 w2. subst w2 w1.
    rewrite !(artifacts_post_eq _ _ _ _ Hv Hok). cbn [fst].
    rewrite (artifacts_get_eq _ _ _ Hv), files_after_submit. reflexivity.
Qed.

Lemma last_write_wins_witness :
  let id := "12345678-1234-5678-1234-567812345678" in
  snd (result_get "/srv/data" id
         (fst (result_post "/srv/data" id (JInt 2)
                 (fst (result_post "/srv/data" id (JInt 1) empty_world)))))
  = Ret (Text "2", 200).
Proof.
  intros id.
  assert (Hv : check_valid_uuid (JStr id) = Ret true) by (vm_compute; reflexivity).
  exact (proj1 (last_write_wins "/srv/data" id empty_world Hv) (JInt 1) (JInt 2) eq_refl).
Defined.

Lemma accepted_submission_valid (d : list (string * json)) (rnd : Z)
    (q job_id : string) (data : json) :
  accepted_submission d rnd q job_id data ->
  check_valid_uuid (JStr job_id) = Ret true.
Proof.
  intros (_ & _ & [(_ & -> & _) | (_ & Hv & _)]); [apply uuid4_valid | exact Hv].
Qed.

Lemma job_post_world (DATA_PATH : string) (d : list (string * json)) (rnd : Z)
    (q job_id : string) (data : json) (w : world) :
  accepted_submission d rnd q job_id data ->
  path_ok (result_path DATA_PATH job_id) = true ->
  let path := result_path DATA_PATH job_id in
  let record := state_record (next_state DATA_PATH job_id w) in
  fst (job_post DATA_PATH (JDict d) rnd w)
  = put_file path record
      (add_trace [EvLpush q (json_dumps data); EvExists path; EvWrite path record]
         (put_list q (json_dumps data :: redis_list w q) w)).
Proof.
  intros H Hok path record.
  rewrite (job_post_accepted _ _ _ _ _ _ _ H), (job_post_enqueue_eq _ _ _ _ _ Hok).
  reflexivity.
Qed.

Lemma job_post_world_refused (DATA_PATH : string) (d : list (string * json)) (rnd : Z)
    (q job_id : string) (data : json) (w : world) :
  accepted_submission d rnd q job_id data ->
  path_ok (result_path DATA_PATH job_id) = false ->
  let path := result_path DATA_PATH job_id in
  let record := state_record (next_state DATA_PATH job_id w) in
  job_post DATA_PATH (JDict d) rnd w
  = (add_trace [EvLpush q (json_dumps data); EvExists path; EvWrite path record]
       (put_list q (json_dumps data :: redis_list w q) w),
     Raise OSError).
Proof.
  intros H Hok path record.
  rewrite (job_post_accepted _ _ _ _ _ _ _ H), (job_post_enqueue_refused _ _ _ _ _ Hok).
  reflexivity.
Qed.

(** X6: the life of a job's result record, when the file system takes the
    result path.  Right after an accepted
    submission the result read returns the state record just written
    (['waiting'], or ['resubmitted'] if a record was there); a result write
    replaces it, and the read then returns the posted result; a later
    submission with the same id replaces the posted result with
    ['resubmitted']. *)
Theorem result_record_lifecycle (DATA_PATH : string) (w : world)
    (d d' : list (string * json)) (rnd rnd' : Z) (q q' job_id : string)
    (data data' R : json) :
  accepted_submission d rnd q job_id data ->
  accepted_submission d' rnd' q' job_id data' ->
  path_ok (os_path_join DATA_PATH job_id) = true ->
  let w1 := fst (job_post DATA_PATH (JDict d) rnd w) in
  let w2 := fst (result_post DATA_PATH job_id R w1) in
  let w3 := fst (job_post DATA_PATH (JDict d') rnd' w2) in
  snd (result_get DATA_PATH job_id w1)
  = Ret (Text (state_record (if bool_decide (is_Some (files w !! os_path_join DATA_PATH job_id))
                             then "resubmitted" else "waiting")), 200) /\
  snd (result_get DATA_PATH job_id w2) = Ret (Text (json_dumps R), 200) /\
  snd (result_get DATA_PATH job_id w3) = Ret (Text (state_record "resubmitted"), 200).
Proof.
  intros H H' Hok w1 w2 w3.
  pose proof (accepted_submission_valid _ _ _ _ _ H) as Hv.
  subst w3 w2 w1. split; [|split].
  - rewrite (job_post_world _ _ _ _ _ _ _ H Hok). cbn [fst].
    apply result_get_after_write, Hv.
  - rewrite (result_post_eq _ _ _ _ Hv Hok). cbn [fst].
    apply result_get_after_write, Hv.
  - rewrite (job_post_world _ _ _ _ _ _ _ H' Hok). cbn [fst].
    rewrite (result_get_after_write _ _ _ _ _ Hv).
    rewrite next_state_after; [reflexivity|].
    rewrite (result_post_eq _ _ _ _ Hv Hok). cbn [fst].
    rewrite files_after_submit. eauto.
Qed.

Lemma result_record_lifecycle_witness :
  let d := [("job_queue", JStr "q");
            ("job_id", JStr "12345678-1234-5678-1234-567812345678")] in
  let id := "12345678-1234-5678-1234-567812345678" in
  let w1 := fst (job_post "/srv/data" (JDict d) 0 empty_world) in
  let w2 := fst (result_post "/srv/data" id (JStr "done") w1) in
  let w3 := fst (job_post "/srv/data" (JDict d) 0 w2) in
  snd (result_get "/srv/data" id w1) = Ret (Text (state_record "waiting"), 200) /\
  snd (result_get "/srv/data" id w2) = Ret (Text (json_dumps (JStr "done")), 200) /\
  snd (result_get "/srv/data" id w3) = Ret (Text (state_record "resubmitted"), 200).
Proof.
  intros d id w1 w2 w3.
  assert (H : accepted_submission d 0 "q" id (JDict d)).
  { split; [reflexivity|]. split; [discriminate|]. right.
    split; [reflexivity|]. split; [vm_compute; reflexivity | reflexivity]. }
  exact (result_record_lifecycle "/srv/data" empty_world d d 0 0 "q" "q" id
           (JDict d) (JDict d) (JStr "done") H H eq_refl).
Defined.

Lemma files_put_file_ne (path path' content : string) (evs : list event) (w : world) :
  path <> path' ->
  files (put_file path content (add_trace evs w)) !! path' = files w !! path'.
Proof. intros H. cbn [put_file add_trace files]. apply lookup_insert_ne, H. Qed.

(** X7: writes for one valid id leave the answers for the others alone.  A
    result write changes no other id's result read and a upload no other
    id's artifact read; an upload changes no result read at all, and a
    result write no artifact read at all, the same id included. *)
Theorem writes_do_not_interfere (DATA_PATH id1 : string) (w : world) :
  check_valid_uuid (JStr id1) = Ret true ->
  (forall id2 R,
      check_valid_uuid (JStr id2) = Ret true -> id1 <> id2 ->
      snd (result_get DATA_PATH id2 (fst (result_post DATA_PATH id1 R w)))
      = snd (result_get DATA_PATH id2 w)) /\
  (forall id2 B,
      check_valid_uuid (JStr id2) = Ret true -> id1 <> id2 ->
      snd (artifacts_get DATA_PATH id2 (fst (artifacts_post DATA_PATH id1 (Some B) w)))
      = snd (artifacts_get DATA_PATH id2 w)) /\
  (forall id2 B,
      check_valid_uuid (JStr id2) = Ret true ->
      snd (result_get DATA_PATH id2 (fst (artifacts_post DATA_PATH id1 (Some B) w)))
      = snd (result_get DATA_PATH id2 w)) /\
  (forall id2 R,
      check_valid_uuid (JStr id2) = Ret true ->
      snd (artifacts_get DATA_PATH id2 (fst (result_post DATA_PATH id1 R w)))
      = snd (artifacts_get DATA_PATH id2 w)).
Proof.
  intros H1.
  assert (FR : forall R p, p <> result_path DATA_PATH id1 ->
               files (fst (result_post DATA_PATH id1 R w)) !! p = files w !! p).
  { intros R p Hp. destruct (path_ok (result_path DATA_PATH id1)) eqn:Hok.
    - rewrite (result_post_eq _ _ _ _ H1 Hok). cbn [fst].
      apply files_put_file_ne. congruence.
    - rewrite (result_post_refused _ _ _ _ H1 Hok). reflexivity. }
  assert (FA : forall B p, p <> artifact_path DATA_PATH id1 ->
               files (fst (artifacts_post DATA_PATH id1 (Some B) w)) !! p = files w !! p).
  { intros B p Hp. destruct (path_ok (artifact_path DATA_PATH id1)) eqn:Hok.
    - rewrite (artifacts_post_eq _ _ _ _ H1 Hok). cbn [fst].
      apply files_put_file_ne. congruence.
    - rewrite (artifacts_post_refused _ _ _ _ H1 Hok). reflexivity. }
  repeat split.
  - intros id2 R H2 Hne. rewrite !(result_get_eq _ _ _ H2), FR.
    + destruct (files w !! result_path DATA_PATH id2); reflexivity.
    + intros E. apply Hne. symmetry. exact (result_path_inj _ _ _ H2 H1 E).
  - intros id2 B H2 Hne. rewrite !(artifacts_get_eq _ _ _ H2), FA.
    + destruct (files w !! artifact_path DATA_PATH id2); reflexivity.
    + intros E. apply Hne. symmetry. exact (artifact_path_inj _ _ _ H2 H1 E).
  - intros id2 B H2. rewrite !(result_get_eq _ _ _ H2), FA.
    + destruct (files w !! result_path DATA_PATH id2); reflexivity.
    + intros E. symmetry in E. revert E. apply artifact_path_apart; assumption.
  - intros id2 R H2. rewrite !(artifacts_get_eq _ _ _ H2), FR.
    + destruct (files w !! artifact_path DATA_PATH id2); reflexivity.
    + apply artifact_path_apart; assumption.
Qed.

Lemma writes_do_not_interfere_witness :
  let id1 := "12345678-1234-5678-1234-567812345678" in
  let id2 := "00000000-0000-4000-8000-000000000000" in
  let w := fst (result_post "/srv/data" id2 (JStr "kept") empty_world) in
  snd (result_get "/srv/data" id2 (fst (result_post "/srv/data" id1 JNull w)))
  = snd (result_get "/srv/data" id2 w) /\
  snd (result_get "/srv/data" id2 (fst (artifacts_post "/srv/data" id2 (Some "blob") w)))
  = snd (result_get "/srv/data" id2 w).
Proof.
  intros id1 id2 w.
  assert (H1 : check_valid_uuid (JStr id1) = Ret true) by (vm_compute; reflexivity).
  assert (H2 : check_valid_uuid (JStr id2) = Ret true) by (vm_compute; reflexivity).
  pose proof (writes_do_not_interfere "/srv/data" id1 w H1) as (F1 & _).
  pose proof (writes_do_not_interfere "/srv/data" id2 w H2) as (_ & _ & F3 & _).
  split.
  - exact (F1 id2 JNull H2 ltac:(discriminate)).
  - exact (F3 id2 "blob" H2).
Defined.

(** ** The output stream, further *)

(** X8: an output append for a valid id puts the data at the right end of
    the id's stream and sets the stream's expiry to 14400 seconds; no other
    list, no other expiry and no file is changed. *)
Theorem output_post_effects (job_id data : string) (w : world) :
  check_valid_uuid (JStr job_id) = Ret true ->
  let key := "stream_" ++ job_id in
  let w' := fst (output_post job_id data w) in
  snd (output_post job_id data w) = Ret (Text "OK", 200) /\
  lists w' !! key = Some (default [] (lists w !! key) ++ [data])%list /\
  expiry w' !! key = Some 14400 /\
  (forall k, k <> key ->
             lists w' !! k = lists w !! k /\ expiry w' !! k = expiry w !! k) /\
  files w' = files w /\
  trace w' = (trace w ++ [EvRpush key data; EvExpire key 14400])%list.
Proof.
  intros Hv key w'. subst w'. rewrite (output_post_eq _ _ _ Hv).
  cbn [fst snd files lists expiry trace]. fold key.
  split; [reflexivity|]. split; [apply lookup_insert_eq|].
  split; [apply lookup_insert_eq|]. split; [|auto].
  intros k Hk. rewrite !lookup_insert_ne by (intros E; apply Hk; symmetry; exact E). auto.
Qed.

Lemma output_post_effects_witness :
  let id := "12345678-1234-5678-1234-567812345678" in
  let w' := fst (output_post id "line" empty_world) in
  lists w' !! ("stream_" ++ id) = Some ["line"] /\
  expiry w' !! ("stream_" ++ id) = Some 14400.
Proof.
  intros id w'.
  assert (Hv : check_valid_uuid (JStr id) = Ret true) by (vm_compute; reflexivity).
  destruct (output_post_effects id "line" empty_world Hv) as (_ & H1 & H2 & _).
  split; [exact H1 | exact H2].
Defined.

(** X9: an output drain for a valid id removes the stream and its expiry
    whatever the stream held, and changes no other list, no other expiry
    and no file. *)
Theorem output_get_clears (job_id : string) (w : world) :
  check_valid_uuid (JStr job_id) = Ret true ->
  let key := "stream_" ++ job_id in
  let w' := fst (output_get job_id w) in
  lists w' !! key = None /\
  expiry w' !! key = None /\
  (forall k, k <> key ->
             lists w' !! k = lists w !! k /\ expiry w' !! k = expiry w !! k) /\
  files w' = files w /\
  trace w' = (trace w ++ [EvLrangeDelete key])%list.
Proof.
  intros Hv key w'.
  assert (E : w' = put_list key [] (add_trace [EvLrangeDelete key] w)).
  { subst w'. rewrite (output_get_eq _ _ Hv). fold (stream_key job_id).
    destruct (redis_list w (stream_key job_id)); reflexivity. }
  rewrite E. cbn [put_list add_trace files lists expiry trace].
  split; [apply lookup_delete_eq|]. split; [apply lookup_delete_eq|].
  split; [|auto]. intros k Hk.
  rewrite !lookup_delete_ne by (intros E'; apply Hk; symmetry; exact E'). auto.
Qed.

Lemma output_get_clears_witness :
  let id := "12345678-1234-5678-1234-567812345678" in
  let w := fst (output_post id "line" empty_world) in
  lists (fst (output_get id w)) !! ("stream_" ++ id) = None /\
  expiry (fst (output_get id w)) !! ("stream_" ++ id) = None.
Proof.
  intros id w.
  assert (Hv : check_valid_uuid (JStr id) = Ret true) by (vm_compute; reflexivity).
  destruct (output_get_clears id w Hv) as (H1 & H2 & _).
  split; [exact H1 | exact H2].
Defined.

Lemma decode_all_invalid (chunks : list string) :
  forallb utf8_valid chunks = false -> decode_all chunks = Raise UnicodeDecodeError.
Proof.
  induction chunks as [|c cs IH]; [discriminate|].
  cbn [forallb decode_all]. unfold bytes_decode.
  destruct (utf8_valid c); cbn [andb res_bind]; [|reflexivity].
  intros H. rewrite (IH H). reflexivity.
Qed.

(** X10: when a chunk of the stream is not UTF-8 text, the drain raises
    [UnicodeDecodeError]; by then the stream has been deleted, so the
    chunks it held are gone. *)
Theorem output_get_undecodable (job_id : string) (w : world) :
  check_valid_uuid (JStr job_id) = Ret true ->
  forallb utf8_valid (default [] (lists w !! ("stream_" ++ job_id))) = false ->
  snd (output_get job_id w) = Raise UnicodeDecodeError /\
  lists (fst (output_get job_id w)) !! ("stream_" ++ job_id) = None.
Proof.
  intros Hv Hbad. rewrite (output_get_eq _ _ Hv).
  change (default [] (lists w !! ("stream_" ++ job_id)))
    with (redis_list w (stream_key job_id)) in Hbad.
  destruct (redis_list w (stream_key job_id)) as [|c cs]; [discriminate|].
  rewrite (decode_all_invalid _ Hbad). cbn [fst snd res_bind].
  split; [reflexivity|]. cbn [put_list add_trace lists]. apply lookup_delete_eq.
Qed.

Lemma output_get_undecodable_witness :
  let id := "12345678-1234-5678-1234-567812345678" in
  let w := fst (output_post id (String "255" "") (fst (output_post id "ok" empty_world))) in
  snd (output_get id w) = Raise UnicodeDecodeError /\
  lists (fst (output_get id w)) !! ("stream_" ++ id) = None.
Proof.
  intros id w.
  assert (Hv : check_valid_uuid (JStr id) = Ret true) by (vm_compute; reflexivity).
  assert (Hbad : forallb utf8_valid (default [] (lists w !! ("stream_" ++ id))) = false)
    by (vm_compute; reflexivity).
  exact (output_get_undecodable id w Hv Hbad).
Defined.

Lemma drain_after_posts (DATA_PATH job_id : string) (chunks : list string) (w : world) :
  check_valid_uuid (JStr job_id) = Ret true ->
  redis_list w (stream_key job_id) = [] ->
  chunks <> [] ->
  forallb utf8_valid chunks = true ->
  let w1 := run DATA_PATH (map (OutputPost job_id) chunks) w in
  output_get job_id w1
  = (put_list (stream_key job_id) [] (add_trace [EvLrangeDelete (stream_key job_id)] w1),
     Ret (Text (str_join nl chunks), 200)).
Proof.
  intros Hv Hempty Hne Hutf w1.
  assert (E1 : redis_list w1 (stream_key job_id) = chunks).
  { subst w1. rewrite (run_output_posts _ _ _ _ Hv), Hempty. reflexivity. }
  rewrite (output_get_eq _ _ Hv), E1.
  destruct chunks as [|c cs]; [congruence|].
  rewrite (decode_all_valid _ Hutf). reflexivity.
Qed.

(** X11: drains partition the output: chunks appended before a drain are
    returned by that drain, chunks appended after it by the next one, each
    chunk once and in append order. *)
Theorem drains_partition_output (DATA_PATH job_id : string)
    (chunks1 chunks2 : list string) (w : world) :
  check_valid_uuid (JStr job_id) = Ret true ->
  lists w !! ("stream_" ++ job_id) = None ->
  chunks1 <> [] -> chunks2 <> [] ->
  forallb utf8_valid chunks1 = true -> forallb utf8_valid chunks2 = true ->
  let w1 := run DATA_PATH (map (OutputPost job_id) chunks1) w in
  let w2 := fst (output_get job_id w1) in
  let w3 := run DATA_PATH (map (OutputPost job_id) chunks2) w2 in
  snd (output_get job_id w1) = Ret (Text (str_join nl chunks1), 200) /\
  snd (output_get job_id w3) = Ret (Text (str_join nl chunks2), 200) /\
  snd (output_get job_id (fst (output_get job_id w3))) = Ret (Text "", 204).
Proof.
  intros Hv Hnone Hne1 Hne2 Hu1 Hu2 w1 w2 w3.
  assert (E0 : redis_list w (stream_key job_id) = []).
  { unfold redis_list, stream_key. rewrite Hnone. reflexivity. }
  pose proof (drain_after_posts DATA_PATH _ _ _ Hv E0 Hne1 Hu1) as G1.
  cbv zeta in G1. fold w1 in G1.
  assert (E2 : redis_list w2 (stream_key job_id) = []).
  { subst w2. rewrite G1. cbn [fst]. rewrite redis_list_put_list.
    rewrite decide_True by reflexivity. reflexivity. }
  pose proof (drain_after_posts DATA_PATH _ _ _ Hv E2 Hne2 Hu2) as G3.
  cbv zeta in G3. fold w3 in G3.
  split; [rewrite G1; reflexivity|]. split; [rewrite G3; reflexivity|].
  rewrite G3. cbn [fst]. rewrite (output_get_eq _ _ Hv), redis_list_put_list.
  rewrite decide_True by reflexivity. reflexivity.
Qed.

Lemma drains_partition_output_witness :
  let id := "12345678-1234-5678-1234-567812345678" in
  let w1 := run "/srv/data" (map (OutputPost id) ["a"; "b"]) empty_world in
  let w3 := run "/srv/data" (map (OutputPost id) ["c"]) (fst (output_get id w1)) in
  snd (output_get id w1) = Ret (Text ("a" ++ nl ++ "b"), 200) /\
  snd (output_get id w3) = Ret (Text "c", 200).
Proof.
  intros id w1 w3.
  assert (Hv : check_valid_uuid (JStr id) = Ret true) by (vm_compute; reflexivity).
  pose proof (drains_partition_output "/srv/data" id ["a"; "b"] ["c"] empty_world
                Hv eq_refl ltac:(discriminate) ltac:(discriminate) eq_refl eq_refl)
    as (H1 & H2 & _).
  split; [exact H1 | exact H2].
Defined.

(** ** Claiming, further *)

Lemma first_nonempty_split (w : world) (keys : list string) (k : string) :
  first_nonempty w keys = Some k ->
  redis_list w k <> [] /\
  exists before after,
    keys = (before ++ k :: after)%list /\
    forall k', In k' before -> redis_list w k' = [].
Proof.
  induction keys as [|x keys IH]; [discriminate|].
  cbn [first_nonempty]. destruct (redis_list w x) as [|y l] eqn:E.
  - intros H. destruct (IH H) as (Hk & before & after & -> & Hb).
    split; [exact Hk|]. exists (x :: before), after. split; [reflexivity|].
    intros k' [<- | Hin]; auto.
  - intros [= <-]. split; [rewrite E; discriminate|].
    exists [], keys. split; [reflexivity|]. intros k' [].
Qed.

(** X12: a claim takes exactly one record, from the first queue, in the
    order the queues were named, that is not empty: the queues named before
    it are empty, its right-most record is removed and returned (status 200
    unless the record is the empty byte string), and no other list and no
    file is changed. *)
Theorem job_get_takes_one (queue_list : list string) (w : world) (k : string) :
  first_nonempty w queue_list = Some k ->
  let w' := fst (job_get queue_list w) in
  (exists before after,
      queue_list = (before ++ k :: after)%list /\
      forall k', In k' before -> lists w !! k' = None \/ lists w !! k' = Some []) /\
  (exists l job,
      lists w !! k = Some (l ++ [job])%list /\
      default [] (lists w' !! k) = l /\
      snd (job_get queue_list w)
      = Ret (match job with "" => (Text "", 204) | _ => (Text job, 200) end)) /\
  (forall k', k' <> k -> lists w' !! k' = lists w !! k') /\
  files w' = files w.
Proof.
  intros H w'. destruct (first_nonempty_split _ _ _ H) as (Hne & before & after & Hq & Hb).
  assert (G : job_get queue_list w
              = (put_list k (removelast (redis_list w k))
                   (add_trace [EvBrpop queue_list 1] w),
                 Ret (match List.last (redis_list w k) "" with
                      | "" => (Text "", 204)
                      | _ => (Text (List.last (redis_list w k) ""), 200)
                      end))).
  { destruct queue_list as [|q qs]; [destruct before; discriminate|].
    unfold job_get, bind. rewrite get_job_eq, H.
    destruct (List.last (redis_list w k) ""); reflexivity. }
  split; [|split; [|split]].
  - exists before, after. split; [exact Hq|]. intros k' Hin.
    specialize (Hb k' Hin). unfold redis_list in Hb.
    destruct (lists w !! k') as [l|]; [right | left; reflexivity].
    cbn in Hb. rewrite Hb. reflexivity.
  - destruct (exists_last Hne) as (l & job & El).
    exists l, job. unfold redis_list in El.
    destruct (lists w !! k) as [l0|] eqn:Ek; cbn in El; [|destruct l; discriminate].
    subst l0. split; [reflexivity|].
    assert (Er : redis_list w k = (l ++ [job])%list) by (unfold redis_list; rewrite Ek; reflexivity).
    subst w'. rewrite G, Er, removelast_last, last_last. cbn [fst snd].
    split; [|reflexivity].
    change (default [] (lists (put_list k l (add_trace [EvBrpop queue_list 1] w)) !! k))
      with (redis_list (put_list k l (add_trace [EvBrpop queue_list 1] w)) k).
    rewrite redis_list_put_list, decide_True by reflexivity. reflexivity.
  - intros k' Hk'. subst w'. rewrite G. cbn [fst].
    unfold put_list. destruct (removelast (redis_list w k)); cbn [lists add_trace].
    + apply lookup_delete_ne. congruence.
    + apply lookup_insert_ne. congruence.
  - subst w'. rewrite G. cbn [fst].
    unfold put_list. destruct (removelast (redis_list w k)); reflexivity.
Qed.

Lemma job_get_takes_one_witness :
  let w := put_list "b" ["j2"; "j1"] (put_list "c" ["j3"] empty_world) in
  exists l job,
    lists w !! "b" = Some (l ++ [job])%list /\
    default [] (lists (fst (job_get ["a"; "b"; "c"] w)) !! "b") = l /\
    snd (job_get ["a"; "b"; "c"] w)
    = Ret (match job with "" => (Text "", 204) | _ => (Text job, 200) end).
Proof.
  intros w.
  assert (H : first_nonempty w ["a"; "b"; "c"] = Some "b") by (vm_compute; reflexivity).
  exact (proj1 (proj2 (job_get_takes_one ["a"; "b"; "c"] w "b" H))).
Defined.

(** X13: a claim never raises: the failed unpacking of an empty pop is
    caught.  Its answer is 400 exactly when no queue was named, and
    otherwise 204 with an empty body or 200 with a non-empty body. *)
Theorem job_get_never_raises (queue_list : list string) (w : world) :
  exists b status,
    snd (job_get queue_list w) = Ret (Text b, status) /\
    ((status = 400 /\ queue_list = []) \/
     (status = 204 /\ b = "" /\ queue_list <> []) \/
     (status = 200 /\ b <> "" /\ queue_list <> [])).
Proof.
  destruct queue_list as [|q qs].
  - exists "No queue(s) specified in request", 400. split; [reflexivity | auto].
  - unfold job_get, bind. rewrite get_job_eq.
    destruct (first_nonempty w (q :: qs)) as [k|].
    + destruct (List.last (redis_list w k) "") as [|c j] eqn:E.
      * exists "", 204. cbn. split; [reflexivity|]. right. left. auto.
      * exists (String c j), 200. cbn. split; [reflexivity|]. right. right. auto.
    + exists "", 204. cbn. split; [reflexivity|]. right. left. auto.
Qed.

(** ** Submission, further *)

(** X14: a submission that names a queue and carries a job id that is not
    a string (a number, [true], a list, an object) is answered 400 (invalid
    job id) and changes nothing: the failure of [uuid.UUID] on such a value
    is caught and read as an invalid id. *)
Theorem job_post_non_string_id (DATA_PATH : string) (d : list (string * json))
    (job_queue job_id : json) (rnd : Z) (w : world) :
  dict_lookup "job_queue" d = Some job_queue -> truthy job_queue = true ->
  dict_lookup "job_id" d = Some job_id -> truthy job_id = true ->
  (forall s, job_id <> JStr s) ->
  job_post DATA_PATH (JDict d) rnd w
  = (w, Ret (Text ("Invalid job_id specified" ++ nl), 400)).
Proof.
  intros Hq Hqt Hi Hit Hns.
  apply (job_post_invalid_id DATA_PATH d job_queue job_id); auto.
  destruct job_id; try reflexivity. exfalso. exact (Hns _ eq_refl).
Qed.

Lemma job_post_non_string_id_witness :
  job_post "/srv/data" (JDict [("job_queue", JStr "q"); ("job_id", JInt 7)]) 0 empty_world
  = (empty_world, Ret (Text ("Invalid job_id specified" ++ nl), 400)).
Proof.
  apply (job_post_non_string_id "/srv/data" _ (JStr "q") (JInt 7));
    [reflexivity | reflexivity | reflexivity | reflexivity | discriminate].
Defined.

(** X15: an artifact upload for a valid id whose request has no part named
    ['file'] raises the missing-key error of [request.files] before any
    file is written; the world is unchanged. *)
Theorem artifacts_post_no_file (DATA_PATH job_id : string) (w : world) :
  check_valid_uuid (JStr job_id) = Ret true ->
  artifacts_post DATA_PATH job_id None w = (w, Raise BadRequestKeyError).
Proof.
  intros Hv. unfold artifacts_post, bind, lift. rewrite Hv. reflexivity.
Qed.

Lemma artifacts_post_no_file_witness :
  artifacts_post "/srv/data" "12345678-1234-5678-1234-567812345678" None empty_world
  = (empty_world, Raise BadRequestKeyError).
Proof.
  apply artifacts_post_no_file. vm_compute. reflexivity.
Defined.

(** X16: whatever the payload, when a submission returns a response it is
    one of two kinds: a 400 that left the world untouched, or a 200 whose
    body is the job id, a string that passes [check_valid_uuid] and whose
    result record now exists. *)
Theorem job_post_answers (DATA_PATH : string) (data : json) (rnd : Z)
    (w w1 : world) (r : response) :
  job_post DATA_PATH data rnd w = (w1, Ret r) ->
  (snd r = 400 /\ w1 = w) \/
  (exists id,
      r = (Jsonify [("job_id", JStr id)], 200) /\
      check_valid_uuid (JStr id) = Ret true /\
      is_Some (files w1 !! os_path_join DATA_PATH id)).
Proof.
  unfold job_post. unfold bind at 1. unfold try_except, lift, py_get.
  destruct data as [ | | | | | | d]; cbn [negb truthy];
    try (unfold ret; intros [= <- <-]; left; split; reflexivity).
  destruct (truthy (default JNull (dict_lookup "job_queue" d))); cbn [negb];
    [|unfold ret; intros [= <- <-]; left; split; reflexivity].
  unfold bind at 1.
  destruct (truthy (default JNull (dict_lookup "job_id" d))) eqn:Et; cbn [negb].
  - unfold bind at 1.
    destruct (check_valid_uuid (default JNull (dict_lookup "job_id" d))) as [[|]|] eqn:Hv;
      cbn [negb]; [| unfold ret; intros [= <- <-]; left; split; reflexivity | discriminate].
    intros H. right.
    apply job_post_enqueue_inv in H as (id & Hid & -> & Hf).
    exists id. rewrite Hid in Hv. rewrite Hid.
    split; [reflexivity|]. split; [exact Hv|].
    unfold result_path in Hf. rewrite Hf. eauto.
  - unfold bind at 1. cbn [py_setitem].
    intros H. right.
    apply job_post_enqueue_inv in H as (id & [= <-] & -> & Hf).
    exists (uuid_str (uuid4 rnd)).
    split; [reflexivity|]. split; [apply uuid4_valid|].
    unfold result_path in Hf. rewrite Hf. eauto.
Qed.

Lemma job_post_answers_witness :
  let out := job_post "/srv/data" (JDict [("job_queue", JStr "q")]) 3 empty_world in
  exists id,
    check_valid_uuid (JStr id) = Ret true /\
    is_Some (files (fst out) !! os_path_join "/srv/data" id).
Proof.
  intros out.
  assert (H : out = (fst out, Ret (Jsonify [("job_id", JStr (uuid_str (uuid4 3)))], 200))).
  { subst out.
    rewrite (job_post_accepted "/srv/data" [("job_queue", JStr "q")] 3 "q" (uuid_str (uuid4 3))
               (JDict [("job_queue", JStr "q"); ("job_id", JStr (uuid_str (uuid4 3)))])).
    - rewrite job_post_enqueue_eq by reflexivity. reflexivity.
    - split; [reflexivity|]. split; [discriminate|]. left. repeat split. }
  destruct (job_post_answers "/srv/data" _ 3 empty_world _ _ H)
    as [[E _] | (id & _ & Hv & Hf)]; [discriminate E | eauto].
Defined.



(** X18: a result write or an artifact upload for a valid id is one write
    to one file: the trace grows by that single access, every other file is
    as before, and the Redis lists and expiries are not touched. *)
Theorem file_writes_frame (DATA_PATH job_id : string) (w : world) :
  check_valid_uuid (JStr job_id) = Ret true ->
  (forall R,
      let path := os_path_join DATA_PATH job_id in
      let w' := fst (result_post DATA_PATH job_id R w) in
      trace w' = (trace w ++ [EvWrite path (json_dumps R)])%list /\
      (forall p, p <> path -> files w' !! p = files w !! p) /\
      lists w' = lists w /\ expiry w' = expiry w) /\
  (forall B,
      let path := os_path_join DATA_PATH (job_id ++ ".artifact") in
      let w' := fst (artifacts_post DATA_PATH job_id (Some B) w) in
      trace w' = (trace w ++ [EvWrite path B])%list /\
      (forall p, p <> path -> files w' !! p = files w !! p) /\
      lists w' = lists w /\ expiry w' = expiry w).
Proof.
  intros Hv. split.
  - intros R path w'. subst w'.
    destruct (path_ok (result_path DATA_PATH job_id)) eqn:Hok.
    + rewrite (result_post_eq _ _ _ _ Hv Hok).
      cbn [fst put_file add_trace files lists expiry trace].
      split; [reflexivity|]. split; [|auto].
      intros p Hp. apply lookup_insert_ne. intros E. apply Hp. symmetry. exact E.
    + rewrite (result_post_refused _ _ _ _ Hv Hok).
      cbn [fst add_trace files lists expiry trace]. auto.
  - intros B path w'. subst w'.
    destruct (path_ok (artifact_path DATA_PATH job_id)) eqn:Hok.
    + rewrite (artifacts_post_eq _ _ _ _ Hv Hok).
      cbn [fst put_file add_trace files lists expiry trace].
      split; [reflexivity|]. split; [|auto].
      intros p Hp. apply lookup_insert_ne. intros E. apply Hp. symmetry. exact E.
    + rewrite (artifacts_post_refused _ _ _ _ Hv Hok).
      cbn [fst add_trace files lists expiry trace]. auto.
Qed.

Lemma file_writes_frame_witness :
  let id := "12345678-1234-5678-1234-567812345678" in
  let w' := fst (result_post "/srv/data" id (JInt 1) empty_world) in
  trace w' = [EvWrite (os_path_join "/srv/data" id) "1"] /\ lists w' = ∅.
Proof.
  intros id w'.
  assert (Hv : check_valid_uuid (JStr id) = Ret true) by (vm_compute; reflexivity).
  destruct (proj1 (file_writes_frame "/srv/data" id empty_world Hv) (JInt 1))
    as (Ht & _ & Hl & _).
  split; [exact Ht | exact Hl].
Defined.

(** ** Queue and stream handlers against the result directory *)

Lemma job_get_files (queue_list : list string) (w : world) :
  files (fst (job_get queue_list w)) = files w.
Proof.
  destruct queue_list as [|q qs]; [reflexivity|].
  unfold job_get, bind. rewrite get_job_eq.
  destruct (first_nonempty w (q :: qs)) as [k|]; [|reflexivity].
  destruct (List.last (redis_list w k) ""); cbn [bytes_truthy fst ret];
    unfold put_list; destruct (removelast (redis_list w k)); reflexivity.
Qed.

Lemma output_post_files (job_id data : string) (w : world) :
  files (fst (output_post job_id data w)) = files w.
Proof.
  destruct (check_valid_uuid_cases (JStr job_id)) as [Hv | Hv].
  - rewrite (output_post_eq _ _ _ Hv). reflexivity.
  - unfold output_post, bind, lift. rewrite Hv. reflexivity.
Qed.

Lemma output_get_files (job_id : string) (w : world) :
  files (fst (output_get job_id w)) = files w.
Proof.
  destruct (check_valid_uuid_cases (JStr job_id)) as [Hv | Hv].
  - rewrite (output_get_eq _ _ Hv).
    destruct (redis_list w (stream_key job_id)); reflexivity.
  - unfold output_get, bind, lift. rewrite Hv. reflexivity.
Qed.

Lemma reads_depend_on_files (DATA_PATH job_id : string) (w1 w2 : world) :
  files w1 = files w2 ->
  snd (result_get DATA_PATH job_id w1) = snd (result_get DATA_PATH job_id w2) /\
  snd (artifacts_get DATA_PATH job_id w1) = snd (artifacts_get DATA_PATH job_id w2).
Proof.
  intros E. destruct (check_valid_uuid_cases (JStr job_id)) as [Hv | Hv].
  - rewrite !(result_get_eq _ _ _ Hv), !(artifacts_get_eq _ _ _ Hv), E.
    destruct (files w2 !! result_path DATA_PATH job_id);
      destruct (files w2 !! artifact_path DATA_PATH job_id); auto.
  - unfold result_get, artifacts_get, bind, lift. rewrite Hv. auto.
Qed.

(** X19: claiming a job, appending output and draining output never write
    to the result directory: whatever their arguments, the files are as
    before, so the answer of every result read and artifact read is the
    same after them as before. *)
Theorem redis_handlers_keep_files (DATA_PATH : string) (w : world) :
  (forall queue_list,
      files (fst (job_get queue_list w)) = files w) /\
  (forall job_id data,
      files (fst (output_post job_id data w)) = files w) /\
  (forall job_id,
      files (fst (output_get job_id w)) = files w) /\
  (forall r id,
      match r with
      | JobGet _ | OutputPost _ _ | OutputGet _ =>
          snd (result_get DATA_PATH id (fst (handle DATA_PATH r w)))
          = snd (result_get DATA_PATH id w) /\
          snd (artifacts_get DATA_PATH id (fst (handle DATA_PATH r w)))
          = snd (artifacts_get DATA_PATH id w)
      | _ => True
      end).
Proof.
  split; [exact (fun ql => job_get_files ql w)|].
  split; [exact (fun id data => output_post_files id data w)|].
  split; [exact (fun id => output_get_files id w)|].
  intros r id. destruct r; try exact I; cbn [handle];
    apply reads_depend_on_files;
    auto using job_get_files, output_post_files, output_get_files.
Qed.

Lemma fs_bytes_length (s : string) : (String.length s <= fs_bytes s)%nat.
Proof.
  induction s as [|c s IH]; cbn [String.length fs_bytes]; [lia|].
  unfold char_bytes. destruct (N_of_ascii c <? 128)%N; lia.
Qed.

Lemma components_ok_name (s : string) (cur : nat) :
  str_mem "/" s = false ->
  components_ok cur s = (cur + fs_bytes s <=? NAME_MAX)%nat.
Proof.
  revert cur. induction s as [|c s IH]; intros cur Hs.
  - cbn [components_ok fs_bytes]. rewrite Nat.add_0_r. reflexivity.
  - cbn [str_mem] in Hs. apply orb_false_elim in Hs as [Hc Hs].
    cbn [components_ok fs_bytes]. rewrite Ascii.eqb_sym, Hc, (IH _ Hs).
    f_equal. lia.
Qed.

Lemma components_ok_long_name (p s : string) (cur : nat) :
  str_mem "/" s = false -> (NAME_MAX < fs_bytes s)%nat ->
  components_ok cur (p ++ s) = false.
Proof.
  intros Hs Hl. revert cur. induction p as [|c p IH]; intros cur.
  - rewrite str_app_nil_l, (components_ok_name _ _ Hs).
    apply Nat.leb_gt. lia.
  - rewrite str_app_cons. cbn [components_ok].
    destruct (Ascii.eqb c "/"); [|apply IH].
    rewrite IH. apply andb_false_r.
Qed.

Lemma path_ok_long_name (a s : string) :
  str_mem "/" s = false -> (NAME_MAX < String.length s)%nat ->
  path_ok (os_path_join a s) = false.
Proof.
  intros Hs Hl.
  assert (Hb : (NAME_MAX < fs_bytes s)%nat) by (pose proof (fs_bytes_length s); lia).
  assert (G : forall p, path_ok (p ++ s) = false).
  { intros p. unfold path_ok. rewrite (components_ok_long_name _ _ _ Hs Hb). reflexivity. }
  rewrite (os_path_join_relative _ _ Hs).
  destruct (str_last a) as [c|]; [|apply G].
  destruct (Ascii.eqb c "/") eqn:E.
  - apply Ascii.eqb_eq in E. subst c. apply G.
  - assert (R : path_ok (a ++ "/" ++ s) = false).
    { rewrite <- str_app_assoc. apply G. }
    revert E. ascii_cases c; intros E; first [discriminate E | exact R].
Qed.

(** X20: when the file system refuses the path of a valid id, a result
    write and an artifact upload raise [OSError] and store nothing, and a
    result read or artifact read after them is answered as before.  An
    accepted submission raises [OSError] too, but only after the job was
    pushed: the queue holds the new record at its left end while no file
    was written. *)
Theorem writes_refused (DATA_PATH job_id : string) (w : world) :
  check_valid_uuid (JStr job_id) = Ret true ->
  (forall R,
      path_ok (os_path_join DATA_PATH job_id) = false ->
      let out := result_post DATA_PATH job_id R w in
      snd out = Raise OSError /\
      files (fst out) = files w /\ lists (fst out) = lists w) /\
  (forall B,
      path_ok (os_path_join DATA_PATH (job_id ++ ".artifact")) = false ->
      let out := artifacts_post DATA_PATH job_id (Some B) w in
      snd out = Raise OSError /\
      files (fst out) = files w /\ lists (fst out) = lists w) /\
  (forall d rnd q data,
      accepted_submission d rnd q job_id data ->
      path_ok (os_path_join DATA_PATH job_id) = false ->
      let out := job_post DATA_PATH (JDict d) rnd w in
      snd out = Raise OSError /\
      lists (fst out) !! q = Some (json_dumps data :: redis_list w q) /\
      files (fst out) = files w).
Proof.
  intros Hv. split; [|split].
  - intros R Hok out. subst out.
    rewrite (result_post_refused _ _ _ _ Hv Hok). repeat split.
  - intros B Hok out. subst out.
    rewrite (artifacts_post_refused _ _ _ _ Hv Hok). repeat split.
  - intros d rnd q data H Hok out. subst out.
    rewrite (job_post_world_refused _ _ _ _ _ _ _ H Hok).
    cbn [fst snd add_trace put_list files lists].
    split; [reflexivity|]. split; [apply lookup_insert_eq | reflexivity].
Qed.

Lemma writes_refused_witness :
  let d := [("job_queue", JStr "q"); ("job_id", JStr long_valid_id)] in
  snd (result_post "/srv/data" long_valid_id (JStr "done") empty_world) = Raise OSError /\
  snd (job_post "/srv/data" (JDict d) 0 empty_world) = Raise OSError /\
  lists (fst (job_post "/srv/data" (JDict d) 0 empty_world)) !! "q"
  = Some (json_dumps (JDict d) :: redis_list empty_world "q").
Proof.
  intros d.
  assert (Hv : check_valid_uuid (JStr long_valid_id) = Ret true) by (vm_compute; reflexivity).
  assert (H : accepted_submission d 0 "q" long_valid_id (JDict d)).
  { split; [reflexivity|]. split; [discriminate|]. right.
    split; [reflexivity|]. split; [exact Hv | reflexivity]. }
  assert (Hok : path_ok (os_path_join "/srv/data" long_valid_id) = false)
    by (vm_compute; reflexivity).
  destruct (writes_refused "/srv/data" long_valid_id empty_world Hv) as (F1 & _ & F3).
  split; [exact (proj1 (F1 (JStr "done") Hok))|].
  destruct (F3 d 0 "q" (JDict d) H Hok) as (G1 & G2 & _).
  split; [exact G1 | exact G2].
Defined.

(** X21: the file system refuses every valid id of more than 255
    characters, whatever [DATA_PATH] is: neither its result path nor its
    artifact path can be created, since the id is the last component of
    the path and longer than [NAME_MAX] bytes. *)
Theorem long_id_refused (DATA_PATH job_id : string) :
  check_valid_uuid (JStr job_id) = Ret true ->
  (255 < String.length job_id)%nat ->
  path_ok (os_path_join DATA_PATH job_id) = false /\
  path_ok (os_path_join DATA_PATH (job_id ++ ".artifact")) = false.
Proof.
  intros Hv Hl.
  assert (Hs : str_mem "/" job_id = false) by (apply valid_no_slash, Hv).
  split.
  - apply path_ok_long_name; [exact Hs | exact Hl].
  - apply path_ok_long_name.
    + rewrite str_mem_app, Hs. reflexivity.
    + rewrite str_app_length. unfold NAME_MAX. lia.
Qed.

Lemma long_id_refused_witness :
  path_ok (os_path_join "/srv/data" long_valid_id) = false /\
  path_ok (os_path_join "/srv/data" (long_valid_id ++ ".artifact")) = false.
Proof.
  apply long_id_refused; [vm_compute; reflexivity|].
  vm_compute. lia.
Defined.

(** ** Sample evaluations *)

Example uuid_ex1 :
  check_valid_uuid (JStr "12345678-1234-5678-1234-567812345678") = Ret true.
Proof. vm_compute. reflexivity. Qed.
Example uuid_ex2 : check_valid_uuid (JStr "not-a-uuid") = Ret false.
Proof. vm_compute. reflexivity. Qed.
Example uuid_ex3 :
  check_valid_uuid (JStr "urn:uuid:{12345678-1234-5678-1234-567812345678}") = Ret true.
Proof. vm_compute. reflexivity. Qed.
Example uuid_ex4 :
  uuid_UUID (JStr "-0000000000000000000000000000001") = Raise ValueError.
Proof. vm_compute. reflexivity. Qed.
Example dumps_ex1 :
  json_dumps (JDict [("job_queue", JStr "q"); ("n", JList [JInt 1; JInt (-2); JNull])])
  = "{" ++ dquote ++ "job_queue" ++ dquote ++ ": " ++ dquote ++ "q" ++ dquote ++
    ", " ++ dquote ++ "n" ++ dquote ++ ": [1, -2, null]}".
Proof. vm_compute. reflexivity. Qed.
Example uuid4_ex1 : uuid_str (uuid4 0) = "00000000-0000-4000-8000-000000000000".
Proof. vm_compute. reflexivity. Qed.
Example uuid4_ex2 :
  uuid_str (uuid4 (2 ^ 128 - 1)) = "ffffffff-ffff-4fff-bfff-ffffffffffff".
Proof. vm_compute. reflexivity. Qed.
Example join_ex1 : os_path_join "/data" "x" = "/data/x".
Proof. reflexivity. Qed.
Example dumps_ex2 : json_dumps (JInt 0) = "0".
Proof. reflexivity. Qed.
Example dumps_ex3 :
  json_dumps (JStr (String "009" "a\" ++ String "233" ""))
  = dquote ++ "\ta\\\u00e9" ++ dquote.
Proof. vm_compute. reflexivity. Qed.
Example uuid_ex5 :
  check_valid_uuid (JStr " 0x_1234567812345678123456781234") = Ret true.
Proof. vm_compute. reflexivity. Qed.
Example uuid_ex6 :
  check_valid_uuid (JStr "12345678-1234-5678-1234-56781234567g") = Ret false.
Proof. vm_compute. reflexivity. Qed.
Example replace_ex1 : str_replace "aa" "b" "aaaaa" = "bba".
Proof. reflexivity. Qed.
Example replace_ex2 : str_replace "" "-" "abc" = "-a-b-c-".
Proof. reflexivity. Qed.
Example strip_ex1 : str_strip "{}" "{{a}b}}" = "a}b".
Proof. reflexivity. Qed.
Example join_ex2 : os_path_join "/data/" "x" = "/data/x".
Proof. reflexivity. Qed.
Example join_ex3 : os_path_join "/data" "/etc/passwd" = "/etc/passwd".
Proof. reflexivity. Qed.
Example utf8_ex1 : utf8_valid (String "195" (String "169" "")) = true.
Proof. reflexivity. Qed.
Example utf8_ex2 : utf8_valid (String "255" "") = false.
Proof. reflexivity. Qed.
Example utf8_ex3 : utf8_valid (String "237" (String "160" (String "128" ""))) = false.
Proof. reflexivity. Qed.
